(** * WAV container encoder of src/utils/audioUtils.ts

    A shallow embedding of [base64ToUint8Array], [writeString],
    [createWavHeader] and [pcmToWavBlob], with the host objects they use
    ([atob], [ArrayBuffer], [DataView], [Uint8Array], [Blob]) modelled after
    ECMAScript and the HTML standard, followed by the properties of the
    encoder.

    Conventions of the model.
    - A JavaScript [number] is an exact rational ([Q]): the finite doubles,
      with arithmetic that is exact as long as the results are representable
      (integers below 2^53 and their eighths here).  NaN and the infinities
      are outside the model.  Statements that depend on the result of an
      addition, a product or a quotient carry the bounds under which the
      doubles of the code compute it exactly.
    - A JavaScript string is the list of its UTF-16 code units.
    - The heap holds the ArrayBuffers in allocation order; a reference is an
      index in it.  The code runs in a state-and-exception monad over the
      heap, so that allocation, in-place writes through views and aliasing
      are explicit.
    - Exceptions are those of the host: [atob] raises InvalidCharacterError
      (the malformed-encoding error of the contract), [DataView] setters and
      [Uint8Array.prototype.set] raise RangeError past the end of a buffer.
      The code defines no error of its own. *)

From Stdlib Require Import ZArith QArith String Ascii Lia.
From stdpp Require Import base list.

Local Open Scope Z_scope.

(** ** Numbers and strings *)

Definition number := Q.

(** truncate(x): rounding toward zero (ECMAScript 7.1.6 and 7.1.7). *)
Definition truncate (x : number) : Z := Z.quot (Qnum x) (Zpos (Qden x)).

(** ToUint8, ToUint16, ToUint32: truncate, then modulo 2^w. *)
Definition ToUint (w : Z) (x : number) : Z := truncate x mod 2 ^ w.
Definition ToUint8 := ToUint 8.
Definition ToUint16 := ToUint 16.
Definition ToUint32 := ToUint 32.

Definition num (n : nat) : number := inject_Z (Z.of_nat n).

(** A string is the list of its code units, each in [0, 65536). *)
Abbreviation jsstring := (list Z).

Definition js (s : string) : jsstring :=
  map (fun a => Z.of_N (N_of_ascii a)) (list_ascii_of_string s).

(** [s.charCodeAt(i)].  Out of range JavaScript answers NaN, which every
    ToUint conversion maps to 0; the loops below stay in range. *)
Definition charCodeAt (s : jsstring) (i : nat) : number :=
  inject_Z (nth i s 0).

(** ** Heap, exceptions and the monad of the code *)

Inductive exn := InvalidCharacterError | RangeError | TypeError.

Inductive result (A : Type) :=
| Ok (a : A)
| Throw (e : exn).
Arguments Ok {A} a.
Arguments Throw {A} e.

Abbreviation heap := (list (list Z)).

Record M (A : Type) : Type := Run { run : heap -> result (A * heap) }.
Arguments Run {A} _.
Arguments run {A} _ _.

#[export] Instance M_ret : MRet M := fun A a => Run (fun σ => Ok (a, σ)).
#[export] Instance M_bind : MBind M := fun A B f m => Run (fun σ =>
  match run m σ with
  | Ok (a, σ') => run (f a) σ'
  | Throw e => Throw e
  end).

Definition throw {A} (e : exn) : M A := Run (fun _ => Throw e).

Definition lift {A} (r : result A) : M A := Run (fun σ =>
  match r with
  | Ok a => Ok (a, σ)
  | Throw e => Throw e
  end).

(** [for (let i = start; i < start + n; i++) body(i)] *)
Fixpoint for_loop (n : nat) (i : nat) (body : nat -> M unit) : M unit :=
  match n with
  | O => mret tt
  | S n' => body i ;; for_loop n' (S i) body
  end.

(** ** ArrayBuffer, DataView, Uint8Array, Blob *)

Record ArrayBuffer := { ab_addr : nat }.
Record DataView := { dv_buffer : ArrayBuffer }.
Record Uint8Array := { buffer : ArrayBuffer; length : nat }.
Record Blob := { blob_bytes : list Z; type : string }.

(** [new ArrayBuffer(n)]: a fresh buffer of [n] zero bytes. *)
Definition new_ArrayBuffer (n : nat) : M ArrayBuffer := Run (fun σ =>
  Ok ({| ab_addr := List.length σ |}, σ ++ [replicate n 0])).

(** [new DataView(buffer)]: a view of the whole buffer. *)
Definition new_DataView (b : ArrayBuffer) : M DataView :=
  mret {| dv_buffer := b |}.

(** Little-endian bytes of [v], [n] of them. *)
Fixpoint le_bytes (n : nat) (v : Z) : list Z :=
  match n with
  | O => []
  | S n' => v mod 256 :: le_bytes n' (v / 256)
  end.

(** The value of a little-endian byte sequence. *)
Fixpoint le_value (bs : list Z) : Z :=
  match bs with
  | [] => 0
  | b :: bs' => b + 256 * le_value bs'
  end.

(** Overwrite [List.length bs] bytes of [buf] from [off] on. *)
Definition store_bytes (off : nat) (bs buf : list Z) : list Z :=
  take off buf ++ bs ++ drop (off + List.length bs) buf.

(** SetViewValue (ECMAScript 25.3.1.6): RangeError unless the [size] bytes
    fit in the view; a missing buffer counts as detached. *)
Definition SetViewValue (view : DataView) (byteOffset size : nat)
    (littleEndian : bool) (v : Z) : M unit := Run (fun σ =>
  let a := ab_addr (dv_buffer view) in
  match σ !! a with
  | None => Throw TypeError
  | Some buf =>
      if decide (byteOffset + size ≤ List.length buf)%nat then
        let raw := le_bytes size v in
        let raw := if littleEndian then raw else rev raw in
        Ok (tt, <[a := store_bytes byteOffset raw buf]> σ)
      else Throw RangeError
  end).

Definition setUint8 (view : DataView) (byteOffset : nat) (value : number) : M unit :=
  SetViewValue view byteOffset 1 false (ToUint8 value).
Definition setUint16 (view : DataView) (byteOffset : nat) (value : number)
    (littleEndian : bool) : M unit :=
  SetViewValue view byteOffset 2 littleEndian (ToUint16 value).
Definition setUint32 (view : DataView) (byteOffset : nat) (value : number)
    (littleEndian : bool) : M unit :=
  SetViewValue view byteOffset 4 littleEndian (ToUint32 value).

(** [new Uint8Array(len)]: a fresh zero-filled buffer and its array. *)
Definition new_Uint8Array (len : nat) : M Uint8Array :=
  b ← new_ArrayBuffer len; mret {| buffer := b; length := len |}.

(** [new Uint8Array(buffer)]: an array over the same buffer (no copy). *)
Definition Uint8Array_of (b : ArrayBuffer) : M Uint8Array := Run (fun σ =>
  match σ !! ab_addr b with
  | None => Throw TypeError
  | Some buf => Ok ({| buffer := b; length := List.length buf |}, σ)
  end).

(** [arr[i] = value]: stores ToUint8(value); out of range it does nothing. *)
Definition set_index (arr : Uint8Array) (i : nat) (value : number) : M unit := Run (fun σ =>
  if decide (i < length arr)%nat then
    Ok (tt, alter (fun buf => <[i := ToUint8 value]> buf) (ab_addr (buffer arr)) σ)
  else Ok (tt, σ)).

(** The bytes of an array, as they are now. *)
Definition contents (arr : Uint8Array) : M (list Z) := Run (fun σ =>
  match σ !! ab_addr (buffer arr) with
  | None => Throw TypeError
  | Some buf => Ok (take (length arr) buf, σ)
  end).

(** [target.set(source, offset)]: RangeError unless the source fits. *)
Definition Uint8Array_set (target source : Uint8Array) (offset : nat) : M unit :=
  src ← contents source;
  if decide (length source + offset ≤ length target)%nat then
    Run (fun σ => Ok (tt, alter (store_bytes offset src) (ab_addr (buffer target)) σ))
  else throw RangeError.

(** [new Blob([arr], { type })]: an immutable copy of the bytes. *)
Definition new_Blob (arr : Uint8Array) (ty : string) : M Blob :=
  bs ← contents arr; mret {| blob_bytes := bs; type := ty |}.

(** ** [atob]: the forgiving-base64 decode of the HTML standard *)

(** ASCII whitespace: TAB, LF, FF, CR, SPACE. *)
Definition is_ascii_whitespace (c : Z) : bool :=
  (c =? 9) || (c =? 10) || (c =? 12) || (c =? 13) || (c =? 32).

(** The value of a code unit of the base64 alphabet: A-Z, a-z, 0-9, + and /. *)
Definition sextet (c : Z) : option Z :=
  if (65 <=? c) && (c <=? 90) then Some (c - 65)
  else if (97 <=? c) && (c <=? 122) then Some (c - 71)
  else if (48 <=? c) && (c <=? 57) then Some (c + 4)
  else if c =? 43 then Some 62
  else if c =? 47 then Some 63
  else None.

(** Remove one or two trailing [=] (code unit 61). *)
Definition strip_padding (data : jsstring) : jsstring :=
  match rev data with
  | c1 :: r1 =>
      if c1 =? 61 then
        match r1 with
        | c2 :: r2 => if c2 =? 61 then rev r2 else rev r1
        | [] => rev r1
        end
      else data
  | [] => data
  end.

(** Groups of four sextets give three bytes; a rest of three gives two
    bytes and a rest of two gives one, the spare low bits being dropped. *)
Fixpoint decode_sextets (v : list Z) : list Z :=
  match v with
  | a :: b :: c :: d :: rest =>
      let n := ((a * 64 + b) * 64 + c) * 64 + d in
      n / 65536 :: n / 256 mod 256 :: n mod 256 :: decode_sextets rest
  | [a; b; c] =>
      let n := (a * 64 + b) * 64 + c in
      [n / 1024; n / 4 mod 256]
  | [a; b] => [(a * 64 + b) / 16]
  | _ => []
  end.

(** Steps 1 and 2: remove the ASCII whitespace; then, if the length is a
    multiple of four, remove one or two trailing [=]. *)
Definition trimmed (data : jsstring) : jsstring :=
  let data := filter (fun c => is_ascii_whitespace c = false) data in
  if (List.length data mod 4 =? 0)%nat then strip_padding data else data.

(** Steps 3 to 8: fail on a length of 1 modulo 4 or on a code unit that is
    not of the alphabet; otherwise decode. *)
Definition forgiving_base64_decode (data : jsstring) : option (list Z) :=
  let data := trimmed data in
  if (List.length data mod 4 =? 1)%nat then None
  else v ← mapM sextet data; Some (decode_sextets v).

(** [atob(data)]: the decoded bytes as a binary string, or an
    InvalidCharacterError DOMException. *)
Definition atob (data : jsstring) : result jsstring :=
  match forgiving_base64_decode data with
  | Some bytes => Ok bytes
  | None => Throw InvalidCharacterError
  end.

(** ** The functions of src/utils/audioUtils.ts *)

Definition base64ToUint8Array (base64 : jsstring) : M Uint8Array :=
  binaryString ← lift (atob base64);
  let len := List.length binaryString in
  bytes ← new_Uint8Array len;
  for_loop len 0 (fun i => set_index bytes i (charCodeAt binaryString i));;
  mret bytes.

Definition writeString (view : DataView) (offset : nat) (string : jsstring) : M unit :=
  for_loop (List.length string) 0 (fun i =>
    setUint8 view (offset + i) (charCodeAt string i)).

Definition createWavHeader (dataLength sampleRate numChannels bitsPerSample : number)
    : M Uint8Array :=
  header ← new_ArrayBuffer 44;
  view ← new_DataView header;
  writeString view 0 (js "RIFF");;
  setUint32 view 4 (36 + dataLength)%Q true;;
  writeString view 8 (js "WAVE");;
  writeString view 12 (js "fmt ");;
  setUint32 view 16 16%Q true;;
  setUint16 view 20 1%Q true;;
  setUint16 view 22 numChannels true;;
  setUint32 view 24 sampleRate true;;
  setUint32 view 28 (sampleRate * numChannels * (bitsPerSample / 8))%Q true;;
  setUint16 view 32 (numChannels * (bitsPerSample / 8))%Q true;;
  setUint16 view 34 bitsPerSample true;;
  writeString view 36 (js "data");;
  setUint32 view 40 dataLength true;;
  Uint8Array_of header.

(** [sampleRate] is the optional argument, 24000 when omitted. *)
Definition pcmToWavBlob (base64Audio : jsstring) (sampleRate : option number) : M Blob :=
  let sampleRate := default 24000%Q sampleRate in
  pcmData ← base64ToUint8Array base64Audio;
  header ← createWavHeader (num (length pcmData)) sampleRate 1%Q 16%Q;
  wavFile ← new_Uint8Array (length header + length pcmData);
  Uint8Array_set wavFile header 0;;
  Uint8Array_set wavFile pcmData (length header);;
  new_Blob wavFile "audio/wav".

(** ** A standard base64 encoder (RFC 4648, section 4), the decoder's
    counterpart in the round-trip law *)

Definition b64char (v : Z) : Z :=
  if v <? 26 then v + 65
  else if v <? 52 then v + 71
  else if v <? 62 then v - 4
  else if v =? 62 then 43
  else 47.

Fixpoint to_sextets (p : list Z) : list Z :=
  match p with
  | x :: y :: z :: rest =>
      x / 4 :: x mod 4 * 16 + y / 16 :: y mod 16 * 4 + z / 64 :: z mod 64
        :: to_sextets rest
  | [x; y] => [x / 4; x mod 4 * 16 + y / 16; y mod 16 * 4]
  | [x] => [x / 4; x mod 4 * 16]
  | [] => []
  end.

Definition padding (n : nat) : jsstring :=
  match (n mod 3)%nat with
  | 1%nat => [61; 61]
  | 2%nat => [61]
  | _ => []
  end.

Definition base64_encode (p : list Z) : jsstring :=
  map b64char (to_sextets p) ++ padding (List.length p).

Definition is_byte (b : Z) : Prop := 0 <= b < 256.

Definition is_sextet (v : Z) : Prop := 0 <= v < 64.

(** The standard base64 alphabet: A-Z, a-z, 0-9, + and /. *)
Definition in_alphabet (c : Z) : Prop :=
  65 <= c <= 90 \/ 97 <= c <= 122 \/ 48 <= c <= 57 \/ c = 43 \/ c = 47.

(** What the decoder rejects: once trimmed, a length of 1 modulo 4 or a
    code unit outside the alphabet (a [=] that is not trailing padding
    included). *)
Definition malformed (s : jsstring) : Prop :=
  (List.length (trimmed s) mod 4 = 1)%nat \/
  exists c, c ∈ trimmed s /\ ~ in_alphabet c.

(** ** Reading a byte sequence back *)

Definition slice (off n : nat) (bytes : list Z) : list Z := take n (drop off bytes).

(** The little-endian unsigned integers at an offset, as a decoder reads them. *)
Definition getUint16 (bytes : list Z) (off : nat) : Z := le_value (slice off 2 bytes).
Definition getUint32 (bytes : list Z) (off : nat) : Z := le_value (slice off 4 bytes).

(** The table of the header builder's contract, field after field. *)
Definition wav_header (payloadLength sampleRate channelCount bitsPerSample : number)
    : list Z :=
  js "RIFF" ++ le_bytes 4 (ToUint32 (36 + payloadLength)%Q)
  ++ js "WAVE"
  ++ js "fmt " ++ le_bytes 4 (ToUint32 16%Q)
  ++ le_bytes 2 (ToUint16 1%Q)
  ++ le_bytes 2 (ToUint16 channelCount)
  ++ le_bytes 4 (ToUint32 sampleRate)
  ++ le_bytes 4 (ToUint32 (sampleRate * channelCount * (bitsPerSample / 8))%Q)
  ++ le_bytes 2 (ToUint16 (channelCount * (bitsPerSample / 8))%Q)
  ++ le_bytes 2 (ToUint16 bitsPerSample)
  ++ js "data" ++ le_bytes 4 (ToUint32 payloadLength).

(** What a caller observes of a call: the bytes of the array it returns,
    or the exception. *)
Definition observe (m : M Uint8Array) (σ : heap) : result (list Z) :=
  match run (arr ← m; contents arr) σ with
  | Ok (bytes, _) => Ok bytes
  | Throw e => Throw e
  end.

Definition observe_blob (m : M Blob) (σ : heap) : result Blob :=
  match run m σ with
  | Ok (b, _) => Ok b
  | Throw e => Throw e
  end.

(** ** [formatTime] and the host functions it uses *)

(** A number that may not be finite, where the code tests for it. *)
Inductive jsnum := Finite (x : number) | NaN | Infinity | NegInfinity.

Definition isFinite (v : jsnum) : bool :=
  match v with Finite _ => true | _ => false end.
Definition isNaN (v : jsnum) : bool :=
  match v with NaN => true | _ => false end.

(** [Math.floor]: rounding toward minus infinity. *)
Definition Math_floor (x : number) : Z := Qnum x / Zpos (Qden x).

(** [x % y] for a nonzero [y]: [x - y * truncate (x / y)], which has the
    sign of [x]. *)
Definition remainder (x y : number) : number :=
  (x - y * inject_Z (truncate (x / y)))%Q.

(** The decimal digits of a natural number, most significant first;
    [fuel] bounds their number. *)
Fixpoint decimal (fuel : nat) (n : Z) : jsstring :=
  match fuel with
  | O => []
  | S fuel' =>
      if n <? 10 then [48 + n]
      else decimal fuel' (n / 10) ++ [48 + n mod 10]
  end.

(** [n.toString()] for an integer [n] (below 10^21 in absolute value, where
    JavaScript still writes all the digits): a minus sign if negative, then
    the digits.  The fuel is more than the number of bits of [n]. *)
Definition Number_toString (n : Z) : jsstring :=
  if n <? 0 then 45 :: decimal (S (Z.to_nat (Z.log2 (- n)))) (- n)
  else decimal (S (Z.to_nat (Z.log2 n))) n.

(** [s.padStart(targetLength, padString)]: [padString] repeated and cut to
    the missing length, then [s]. *)
Definition padStart (s : jsstring) (targetLength : nat) (padString : jsstring)
    : jsstring :=
  let fillLen := (targetLength - List.length s)%nat in
  take fillLen (concat (replicate fillLen padString)) ++ s.

Definition formatTime (seconds : jsnum) : jsstring :=
  if negb (isFinite seconds) || isNaN seconds then js "00:00"
  else
    match seconds with
    | Finite x =>
        let mins := Math_floor (x / 60)%Q in
        let secs := Math_floor (remainder x 60%Q) in
        padStart (Number_toString mins) 2 (js "0") ++ js ":"
          ++ padStart (Number_toString secs) 2 (js "0")
    | _ => js "00:00"
    end.

(** The value of a string of decimal digits, and the number of seconds a
    clock string [M...M:SS] stands for: what a reader of the display gets. *)
Definition digits_value (s : jsstring) : Z :=
  fold_left (fun acc c => 10 * acc + (c - 48)) s 0.

Definition clock_value (s : jsstring) : Z :=
  60 * digits_value (take (List.length s - 3) s)
  + digits_value (drop (List.length s - 2) s).

Definition is_digit (c : Z) : Prop := 48 <= c <= 57.

(** ** [blobToBase64]: what the [onloadend] callback resolves the promise to *)

(** [s.split(sep)] for a separator of one code unit. *)
Fixpoint split (sep : Z) (s : jsstring) : list jsstring :=
  match s with
  | [] => [[]]
  | c :: s' =>
      if c =? sep then [] :: split sep s'
      else
        match split sep s' with
        | piece :: pieces => (c :: piece) :: pieces
        | [] => [[c]]
        end
  end.

(** [result.split(',')[1]], [None] standing for [undefined].  [result] is
    the data URL that [readAsDataURL] produced: [data:<type>;base64,<data>]. *)
Definition blobToBase64_onloadend (result : jsstring) : option jsstring :=
  split 44 result !! 1%nat.

(** ** [playPCMAudio]: the samples it hands to the audio buffer *)

Record Int16Array := { i16_buffer : ArrayBuffer; i16_length : nat }.

(** [new Int16Array(buffer)]: RangeError unless the byte length is a
    multiple of the element size. *)
Definition new_Int16Array (b : ArrayBuffer) : M Int16Array := Run (fun σ =>
  match σ !! ab_addr b with
  | None => Throw TypeError
  | Some buf =>
      if decide (List.length buf mod 2 = 0)%nat then
        Ok ({| i16_buffer := b; i16_length := (List.length buf / 2)%nat |}, σ)
      else Throw RangeError
  end).

(** A 16-bit pattern as a signed integer. *)
Definition to_int16 (v : Z) : Z := if v <? 32768 then v else v - 65536.

(** [arr[i]] for [i] in range: the two bytes at [2 i], in the byte order of
    the host (little-endian on the platforms browsers run on), signed. *)
Definition Int16Array_get (arr : Int16Array) (i : nat) : M number := Run (fun σ =>
  match σ !! ab_addr (i16_buffer arr) with
  | None => Throw TypeError
  | Some buf => Ok (inject_Z (to_int16 (le_value (slice (2 * i) 2 buf))), σ)
  end).

(** [for (let i = ...; i < ...; i++) channelData[i] = dataInt16[i] / 32768.0],
    as the contents of [channelData] after the loop. *)
Fixpoint fill_channelData (n i : nat) (dataInt16 : Int16Array) : M (list number) :=
  match n with
  | O => mret []
  | S n' =>
      v ← Int16Array_get dataInt16 i;
      rest ← fill_channelData n' (S i) dataInt16;
      mret ((v / 32768)%Q :: rest)
  end.

(** The [k]-th sample of a payload: the signed little-endian 16 bits at
    [2 k], over 32768. *)
Definition pcm_sample (P : list Z) (k : nat) : number :=
  (inject_Z (to_int16 (le_value (slice (2 * k) 2 P))) / 32768)%Q.

(** Lines 97 to 105 of [playPCMAudio]: decode, reinterpret as 16-bit
    samples, scale.  The audio context, [createBuffer] (which rejects an
    empty buffer) and the playback itself belong to the host and are left
    out. *)
Definition playPCMAudio_channelData (base64Audio : jsstring) : M (list number) :=
  bytes ← base64ToUint8Array base64Audio;
  dataInt16 ← new_Int16Array (buffer bytes);
  fill_channelData (i16_length dataInt16) 0 dataInt16.

(** * Properties *)

(** Case analysis on the tests of a chain of conditionals. *)
Ltac case_ifs :=
  repeat match goal with
         | |- context [if ?b then _ else _] => destruct b eqn:?
         end.
Ltac case_ifs_in H :=
  repeat match type of H with
         | (if ?b then _ else _) = _ => destruct b eqn:?
         end.

(** ** Concrete runs *)

Example atob_Man : atob (js "TWFu") = Ok (js "Man").
Proof. reflexivity. Qed.

Example atob_padded : atob (js "AAA=") = Ok [0; 0].
Proof. reflexivity. Qed.

Example atob_unpadded_spaced : atob (js " TWFu Af8") = Ok [77; 97; 110; 1; 255].
Proof. reflexivity. Qed.

Example atob_stray_padding : atob (js "A=AA") = Throw InvalidCharacterError.
Proof. reflexivity. Qed.

Example base64_encode_5 : base64_encode [77; 97; 110; 1; 255] = js "TWFuAf8=".
Proof. reflexivity. Qed.

Example ToUint32_negative_fraction : ToUint32 (-3 # 2) = 4294967295.
Proof. reflexivity. Qed.

(** A three-byte payload at the default rate: header, payload, and the
    three buffers the call leaves in an empty heap. *)
Example pcmToWavBlob_AAEC :
  run (pcmToWavBlob (js "AAEC") None) [] =
  let header :=
    [82; 73; 70; 70; 39; 0; 0; 0; 87; 65; 86; 69; 102; 109; 116; 32;
     16; 0; 0; 0; 1; 0; 1; 0; 192; 93; 0; 0; 128; 187; 0; 0; 2; 0; 16; 0;
     100; 97; 116; 97; 3; 0; 0; 0] in
  Ok ({| blob_bytes := header ++ [0; 1; 2]; type := "audio/wav" |},
      [[0; 1; 2]; header; header ++ [0; 1; 2]]).
Proof. vm_compute. reflexivity. Qed.

(** ** Numbers *)

Lemma truncate_inject_Z (n : Z) : truncate (inject_Z n) = n.
Proof. unfold truncate. simpl. apply Z.quot_1_r. Qed.

#[export] Instance truncate_proper : Proper (Qeq ==> eq) truncate.
Proof.
  intros [a b] [c d] H. unfold Qeq in H. unfold truncate. simpl in *.
  rewrite <- (Z.quot_mul_cancel_r a (Z.pos b) (Z.pos d)) by lia.
  rewrite H.
  rewrite (Z.mul_comm (Z.pos b) (Z.pos d)).
  apply Z.quot_mul_cancel_r; lia.
Qed.

#[export] Instance ToUint_proper w : Proper (Qeq ==> eq) (ToUint w).
Proof. intros x y H. unfold ToUint. now rewrite H. Qed.

Lemma ToUint_range w x : 0 <= w -> 0 <= ToUint w x < 2 ^ w.
Proof. intros Hw. unfold ToUint. apply Z.mod_pos_bound. lia. Qed.

(** On an integer that fits the field, the conversion is the identity. *)
Lemma ToUint_exact w (x : number) (n : Z) :
  (x == inject_Z n)%Q -> 0 <= n < 2 ^ w -> ToUint w x = n.
Proof.
  intros Hx Hn. rewrite Hx. unfold ToUint.
  rewrite truncate_inject_Z. apply Z.mod_small. exact Hn.
Qed.

Lemma ToUint8_charCode (s : jsstring) (i : nat) :
  ToUint8 (charCodeAt s i) = nth i s 0 mod 256.
Proof. unfold ToUint8, ToUint, charCodeAt. now rewrite truncate_inject_Z. Qed.

(** ** Little-endian encoding *)

Lemma length_le_bytes n v : List.length (le_bytes n v) = n.
Proof. revert v. induction n as [|n IH]; intros v; simpl; [reflexivity|]. now rewrite IH. Qed.

Lemma le_bytes_is_byte n v : Forall is_byte (le_bytes n v).
Proof.
  revert v. induction n as [|n IH]; intros v; simpl; constructor.
  - unfold is_byte. apply Z.mod_pos_bound. lia.
  - apply IH.
Qed.

Lemma le_value_le_bytes n v : le_value (le_bytes n v) = v mod 256 ^ Z.of_nat n.
Proof.
  revert v. induction n as [|n IH]; intros v.
  - simpl. now rewrite Z.mod_1_r.
  - cbn [le_bytes le_value]. rewrite IH.
    rewrite Nat2Z.inj_succ, Z.pow_succ_r by lia.
    rewrite Z.rem_mul_r by lia. reflexivity.
Qed.

Lemma le_value_u16 x : le_value (le_bytes 2 (ToUint16 x)) = ToUint16 x.
Proof.
  rewrite le_value_le_bytes. apply Z.mod_small.
  change (256 ^ Z.of_nat 2) with (2 ^ 16). apply ToUint_range. lia.
Qed.

Lemma le_value_u32 x : le_value (le_bytes 4 (ToUint32 x)) = ToUint32 x.
Proof.
  rewrite le_value_le_bytes. apply Z.mod_small.
  change (256 ^ Z.of_nat 4) with (2 ^ 32). apply ToUint_range. lia.
Qed.

(** ** The monad *)

Lemma run_bind {A B} (m : M A) (f : A -> M B) σ :
  run (m ≫= f) σ =
  match run m σ with
  | Ok (a, σ') => run (f a) σ'
  | Throw e => Throw e
  end.
Proof. reflexivity. Qed.

(** ** Buffers *)

Lemma length_store_bytes off bs buf :
  (off + List.length bs <= List.length buf)%nat ->
  List.length (store_bytes off bs buf) = List.length buf.
Proof.
  intros H. unfold store_bytes.
  rewrite !length_app, length_take, length_drop. lia.
Qed.

(** Writing one byte and then the following ones is writing them all. *)
Lemma store_bytes_cons off c bs buf :
  (off + 1 <= List.length buf)%nat ->
  store_bytes (S off) bs (store_bytes off [c] buf) = store_bytes off (c :: bs) buf.
Proof.
  intros H. unfold store_bytes. simpl List.length.
  rewrite take_app_ge by (rewrite length_take; lia).
  rewrite length_take, (Nat.min_l off) by lia.
  replace (S off - off)%nat with 1%nat by lia. simpl take.
  rewrite drop_app_ge by (rewrite length_take; lia).
  rewrite length_take, (Nat.min_l off) by lia.
  replace (S off + List.length bs - off)%nat with (S (List.length bs)) by lia.
  simpl drop. rewrite drop_drop, <- app_assoc. simpl.
  now replace (off + 1 + List.length bs)%nat with (off + S (List.length bs))%nat by lia.
Qed.

Lemma store_bytes_nil off buf : store_bytes off [] buf = buf.
Proof. unfold store_bytes. simpl. rewrite Nat.add_0_r. apply take_drop. Qed.

(** A write that covers the whole buffer replaces it. *)
Lemma store_bytes_all bs buf :
  List.length bs = List.length buf -> store_bytes 0 bs buf = bs.
Proof.
  intros H. unfold store_bytes. simpl.
  rewrite drop_ge by lia. apply app_nil_r.
Qed.

(** ** Heap cells *)

Lemma heap_lookup_cell (σ : heap) buf rest :
  (σ ++ buf :: rest) !! List.length σ = Some buf.
Proof. now apply list_lookup_middle. Qed.

Lemma heap_insert_cell (σ : heap) buf buf' rest :
  <[List.length σ := buf']> (σ ++ buf :: rest) = σ ++ buf' :: rest.
Proof.
  rewrite <- (Nat.add_0_r (List.length σ)). now rewrite insert_app_r.
Qed.

Lemma heap_alter_cell (f : list Z -> list Z) (σ : heap) buf rest :
  alter f (List.length σ) (σ ++ buf :: rest) = σ ++ f buf :: rest.
Proof.
  rewrite <- (Nat.add_0_r (List.length σ)). now rewrite alter_app_r.
Qed.

Section cell.
(** Operations on the buffer at address [List.length σ], whatever the
    buffers before and after it. *)
Variables (σ rest : heap).

Lemma SetViewValue_cell off size v buf :
  (off + size <= List.length buf)%nat ->
  run (SetViewValue {| dv_buffer := {| ab_addr := List.length σ |} |} off size true v)
      (σ ++ buf :: rest)
  = Ok (tt, σ ++ store_bytes off (le_bytes size v) buf :: rest).
Proof.
  intros H. unfold SetViewValue. simpl.
  rewrite heap_lookup_cell. rewrite decide_True by exact H.
  now rewrite heap_insert_cell.
Qed.

Lemma setUint8_cell off x buf :
  (off + 1 <= List.length buf)%nat ->
  run (setUint8 {| dv_buffer := {| ab_addr := List.length σ |} |} off x)
      (σ ++ buf :: rest)
  = Ok (tt, σ ++ store_bytes off [ToUint8 x] buf :: rest).
Proof.
  intros H. unfold setUint8, SetViewValue. simpl.
  rewrite heap_lookup_cell. rewrite decide_True by exact H.
  rewrite heap_insert_cell. do 4 f_equal.
  unfold ToUint8, ToUint. now rewrite Z.mod_mod by lia.
Qed.

Lemma setUint16_cell off x buf :
  (off + 2 <= List.length buf)%nat ->
  run (setUint16 {| dv_buffer := {| ab_addr := List.length σ |} |} off x true)
      (σ ++ buf :: rest)
  = Ok (tt, σ ++ store_bytes off (le_bytes 2 (ToUint16 x)) buf :: rest).
Proof. apply SetViewValue_cell. Qed.

Lemma setUint32_cell off x buf :
  (off + 4 <= List.length buf)%nat ->
  run (setUint32 {| dv_buffer := {| ab_addr := List.length σ |} |} off x true)
      (σ ++ buf :: rest)
  = Ok (tt, σ ++ store_bytes off (le_bytes 4 (ToUint32 x)) buf :: rest).
Proof. apply SetViewValue_cell. Qed.

Lemma contents_cell n buf :
  run (contents {| buffer := {| ab_addr := List.length σ |}; length := n |})
      (σ ++ buf :: rest)
  = Ok (take n buf, σ ++ buf :: rest).
Proof. unfold contents. simpl. now rewrite heap_lookup_cell. Qed.

Lemma Uint8Array_of_cell buf :
  run (Uint8Array_of {| ab_addr := List.length σ |}) (σ ++ buf :: rest)
  = Ok ({| buffer := {| ab_addr := List.length σ |}; length := List.length buf |},
        σ ++ buf :: rest).
Proof. unfold Uint8Array_of. simpl. now rewrite heap_lookup_cell. Qed.

Lemma set_index_cell n i x buf :
  (i < n)%nat ->
  run (set_index {| buffer := {| ab_addr := List.length σ |}; length := n |} i x)
      (σ ++ buf :: rest)
  = Ok (tt, σ ++ <[i := ToUint8 x]> buf :: rest).
Proof.
  intros H. unfold set_index. simpl.
  rewrite decide_True by exact H. now rewrite heap_alter_cell.
Qed.

End cell.

(** ** The two loops *)

Lemma insert_store_bytes (i : nat) (c : Z) (buf : list Z) :
  (i < List.length buf)%nat -> <[i := c]> buf = store_bytes i [c] buf.
Proof.
  intros H. unfold store_bytes. rewrite insert_take_drop by exact H.
  simpl. now rewrite Nat.add_1_r.
Qed.

Section loops.
Variables (σ rest : heap) (body : nat -> M unit) (off : nat) (s : jsstring).

(** Iteration [i] stores the low byte of the [i]-th code unit at [off + i]. *)
Hypothesis body_stores : forall i buf,
  (i < List.length s)%nat ->
  (off + List.length s <= List.length buf)%nat ->
  run (body i) (σ ++ buf :: rest)
  = Ok (tt, σ ++ store_bytes (off + i) [nth i s 0 mod 256] buf :: rest).

(** Invariant: what remains to be written are the code units from [i] on. *)
Lemma for_loop_stores n : forall i buf,
  (i + n = List.length s)%nat ->
  (off + List.length s <= List.length buf)%nat ->
  run (for_loop n i body) (σ ++ buf :: rest)
  = Ok (tt, σ ++ store_bytes (off + i) (map (fun c => c mod 256) (drop i s)) buf :: rest).
Proof.
  induction n as [|n IH]; intros i buf Hi Hlen.
  - simpl. rewrite drop_ge by lia. simpl. now rewrite store_bytes_nil.
  - cbn [for_loop]. rewrite run_bind, body_stores by lia.
    rewrite IH by (rewrite ?length_store_bytes; simpl; lia).
    destruct (lookup_lt_is_Some_2 s i) as [c Hc]; [lia|].
    rewrite (drop_S s c i Hc). rewrite nth_lookup, Hc. simpl.
    now rewrite Nat.add_succ_r, store_bytes_cons by lia.
Qed.
End loops.

Lemma writeString_cell (σ rest : heap) off s buf :
  (off + List.length s <= List.length buf)%nat ->
  run (writeString {| dv_buffer := {| ab_addr := List.length σ |} |} off s)
      (σ ++ buf :: rest)
  = Ok (tt, σ ++ store_bytes off (map (fun c => c mod 256) s) buf :: rest).
Proof.
  intros H. unfold writeString.
  rewrite (for_loop_stores σ rest _ off s); [| | lia | exact H].
  - now rewrite Nat.add_0_r, drop_0.
  - intros i b Hi Hb. rewrite setUint8_cell by lia.
    now rewrite ToUint8_charCode.
Qed.

(** ** The header builder *)

Lemma length_wav_header dl sr nc bps : List.length (wav_header dl sr nc bps) = 44%nat.
Proof. reflexivity. Qed.

(** The field-by-field writes into the fresh 44-byte buffer produce the
    table of the contract, in a new cell of the heap and nothing else. *)
Lemma createWavHeader_run dl sr nc bps (σ : heap) :
  run (createWavHeader dl sr nc bps) σ
  = Ok ({| buffer := {| ab_addr := List.length σ |}; length := 44 |},
        σ ++ [wav_header dl sr nc bps]).
Proof.
  unfold createWavHeader.
  rewrite run_bind. cbn [run new_ArrayBuffer].
  rewrite run_bind. cbn [run new_DataView mret M_ret].
  repeat (rewrite run_bind;
          first [ rewrite writeString_cell | rewrite setUint32_cell | rewrite setUint16_cell ];
          [| rewrite ?length_store_bytes; rewrite ?length_le_bytes, ?length_replicate;
             simpl; lia ]).
  rewrite Uint8Array_of_cell. unfold wav_header.
  generalize (ToUint32 (36 + dl)%Q) (ToUint32 16%Q) (ToUint16 1%Q) (ToUint16 nc)
    (ToUint32 sr) (ToUint32 (sr * nc * (bps / 8))%Q) (ToUint16 (nc * (bps / 8))%Q)
    (ToUint16 bps) (ToUint32 dl).
  intros; reflexivity.
Qed.

(** ** Sextets and bytes *)

Lemma list_ind3 {A} (P : list A -> Prop) :
  P [] -> (forall a, P [a]) -> (forall a b, P [a; b]) ->
  (forall a b c l, P l -> P (a :: b :: c :: l)) ->
  forall l, P l.
Proof.
  intros H0 H1 H2 H3. fix IH 1.
  intros [|a [|b [|c l]]];
    [apply H0 | apply H1 | apply H2 | apply H3; apply IH].
Qed.

Lemma list_ind4 {A} (P : list A -> Prop) :
  P [] -> (forall a, P [a]) -> (forall a b, P [a; b]) -> (forall a b c, P [a; b; c]) ->
  (forall a b c d l, P l -> P (a :: b :: c :: d :: l)) ->
  forall l, P l.
Proof.
  intros H0 H1 H2 H3 H4. fix IH 1.
  intros [|a [|b [|c [|d l]]]];
    [apply H0 | apply H1 | apply H2 | apply H3 | apply H4; apply IH].
Qed.

Lemma sextet_range c v : sextet c = Some v -> is_sextet v.
Proof.
  unfold sextet, is_sextet. intros H.
  case_ifs_in H; inversion H; subst; lia.
Qed.

Lemma mapM_sextet_range data v : mapM sextet data = Some v -> Forall is_sextet v.
Proof.
  intros H. apply mapM_Some in H.
  induction H as [|c x data v Hc _ IH]; constructor; eauto using sextet_range.
Qed.

Lemma decode_sextets_is_byte v : Forall is_sextet v -> Forall is_byte (decode_sextets v).
Proof.
  unfold is_sextet, is_byte.
  induction v as [| a | a b | a b c | a b c d v IH] using list_ind4; intros H.
  - constructor.
  - constructor.
  - inversion_clear H as [|? ? Ha H']. inversion_clear H' as [|? ? Hb _].
    cbn [decode_sextets]. repeat constructor;
      Z.to_euclidean_division_equations; lia.
  - inversion_clear H as [|? ? Ha H']. inversion_clear H' as [|? ? Hb H].
    inversion_clear H as [|? ? Hc _].
    cbn [decode_sextets]. repeat constructor;
      Z.to_euclidean_division_equations; lia.
  - inversion_clear H as [|? ? Ha H']. inversion_clear H' as [|? ? Hb H].
    inversion_clear H as [|? ? Hc H']. inversion_clear H' as [|? ? Hd H].
    cbn [decode_sextets]. repeat (constructor; [Z.to_euclidean_division_equations; lia|]).
    apply IH, H.
Qed.

(** The characters of the binary string that [atob] returns are bytes. *)
Lemma atob_is_byte s P : atob s = Ok P -> Forall is_byte P.
Proof.
  unfold atob, forgiving_base64_decode. intros H. cbv zeta in H.
  destruct (_ =? 1)%nat; [discriminate|].
  destruct (mapM sextet _) as [v|] eqn:Hv; simpl in H; [|discriminate].
  inversion H; subst. eauto using decode_sextets_is_byte, mapM_sextet_range.
Qed.

Lemma map_mod_bytes P : Forall is_byte P -> map (fun c => c mod 256) P = P.
Proof.
  induction 1 as [|b P Hb _ IH]; simpl; [reflexivity|].
  rewrite IH. f_equal. apply Z.mod_small, Hb.
Qed.

(** ** The decoder *)

(** The decoder allocates one array, fills it with the bytes of the binary
    string, and touches nothing else; it throws what [atob] throws. *)
Lemma base64ToUint8Array_run s (σ : heap) :
  run (base64ToUint8Array s) σ =
  match atob s with
  | Ok P => Ok ({| buffer := {| ab_addr := List.length σ |}; length := List.length P |},
                σ ++ [P])
  | Throw e => Throw e
  end.
Proof.
  unfold base64ToUint8Array. rewrite run_bind.
  destruct (atob s) as [P|e] eqn:Hs; simpl; [|reflexivity].
  rewrite (for_loop_stores σ [] _ 0 P); [| | lia | now rewrite length_replicate].
  - simpl. rewrite drop_0, store_bytes_all by now rewrite length_map, length_replicate.
    rewrite map_mod_bytes by eauto using atob_is_byte. reflexivity.
  - intros i buf Hi Hb. rewrite set_index_cell by exact Hi.
    rewrite insert_store_bytes by lia. now rewrite ToUint8_charCode.
Qed.

(** ** The assembler *)

Lemma heap_lookup_second (σ : heap) a b c :
  (σ ++ [a; b; c]) !! (List.length σ + 1)%nat = Some b.
Proof. now rewrite lookup_app_r, Nat.add_sub' by lia. Qed.

Lemma heap_lookup_third (σ : heap) a b c :
  (σ ++ [a; b; c]) !! (List.length σ + (1 + 1))%nat = Some c.
Proof. now rewrite lookup_app_r, Nat.add_sub' by lia. Qed.

Lemma heap_alter_third (f : list Z -> list Z) (σ : heap) a b c :
  alter f (List.length σ + (1 + 1))%nat (σ ++ [a; b; c]) = σ ++ [a; b; f c].
Proof. now rewrite alter_app_r. Qed.

Lemma Uint8Array_set_run (σ : heap) tgt src n_tgt n_src off sbuf :
  σ !! ab_addr src = Some sbuf ->
  (n_src + off <= n_tgt)%nat ->
  run (Uint8Array_set {| buffer := tgt; length := n_tgt |}
                      {| buffer := src; length := n_src |} off) σ
  = Ok (tt, alter (store_bytes off (take n_src sbuf)) (ab_addr tgt) σ).
Proof.
  intros Hs Hfit. unfold Uint8Array_set, contents. rewrite run_bind. simpl.
  rewrite Hs. now rewrite decide_True by exact Hfit.
Qed.

(** The whole call: three fresh buffers (payload, header, file) after the
    existing ones, and a Blob holding header and payload. *)
Lemma pcmToWavBlob_run s sr (σ : heap) :
  run (pcmToWavBlob s sr) σ =
  match atob s with
  | Ok P =>
      let H := wav_header (num (List.length P)) (default 24000%Q sr) 1%Q 16%Q in
      Ok ({| blob_bytes := H ++ P; type := "audio/wav" |}, σ ++ [P; H; H ++ P])
  | Throw e => Throw e
  end.
Proof.
  unfold pcmToWavBlob. rewrite run_bind, base64ToUint8Array_run.
  destruct (atob s) as [P|e]; [|reflexivity].
  rewrite run_bind, createWavHeader_run. cbv zeta. cbn [length].
  remember (wav_header _ _ _ _) as H eqn:EH.
  assert (HH : List.length H = 44%nat) by (subst H; apply length_wav_header).
  clear EH.
  rewrite run_bind. cbn [run new_Uint8Array new_ArrayBuffer mbind M_bind mret M_ret length].
  rewrite <- !app_assoc, !length_app. cbn [app List.length].
  rewrite run_bind.
  erewrite Uint8Array_set_run;
    [| cbn [ab_addr]; apply heap_lookup_second | lia].
  cbn [ab_addr]. rewrite heap_alter_third.
  rewrite run_bind.
  erewrite Uint8Array_set_run;
    [| cbn [ab_addr]; apply heap_lookup_cell | lia].
  cbn [ab_addr]. rewrite heap_alter_third.
  unfold new_Blob, contents. rewrite run_bind. cbn [run ab_addr buffer length].
  rewrite heap_lookup_third. cbn [run mret M_ret].
  assert (E : store_bytes 44 (take (List.length P) P)
                (store_bytes 0 (take 44 H) (replicate (44 + List.length P) 0))
              = H ++ P).
  { rewrite firstn_all, <- HH, firstn_all. unfold store_bytes.
    rewrite take_0, !app_nil_l, Nat.add_0_l.
    rewrite (take_app_length H), drop_app_ge by lia.
    rewrite (drop_ge (drop _ _)) by (rewrite length_drop, length_replicate; lia).
    now rewrite app_nil_r. }
  rewrite E, <- HH, <- (length_app H P), firstn_all. reflexivity.
Qed.

(** ** The encoder against the decoder *)

Lemma sextet_in_alphabet c : sextet c = None <-> ~ in_alphabet c.
Proof.
  unfold sextet, in_alphabet.
  case_ifs; split; intros H; try discriminate; try lia; try reflexivity;
    exfalso; apply H; lia.
Qed.

Lemma sextet_plain c v :
  sextet c = Some v -> is_ascii_whitespace c = false /\ c <> 61.
Proof.
  unfold sextet, is_ascii_whitespace. intros H.
  case_ifs_in H; try discriminate; split; lia.
Qed.

Lemma sextet_b64char v : is_sextet v -> sextet (b64char v) = Some v.
Proof.
  unfold is_sextet, b64char. intros H.
  case_ifs; unfold sextet;
  case_ifs; try (f_equal; lia); lia.
Qed.

Lemma mapM_sextet_b64char vs :
  Forall is_sextet vs -> mapM sextet (map b64char vs) = Some vs.
Proof.
  intros H. apply mapM_Some.
  induction H as [|v vs Hv _ IH]; simpl; constructor;
    auto using sextet_b64char.
Qed.

Lemma to_sextets_is_sextet P : Forall is_byte P -> Forall is_sextet (to_sextets P).
Proof.
  unfold is_byte, is_sextet.
  induction P as [| x | x y | x y z P IH] using list_ind3; intros H.
  - constructor.
  - inversion_clear H as [|? ? Hx _]. cbn [to_sextets].
    repeat constructor; Z.to_euclidean_division_equations; lia.
  - inversion_clear H as [|? ? Hx H']. inversion_clear H' as [|? ? Hy _].
    cbn [to_sextets]. repeat constructor; Z.to_euclidean_division_equations; lia.
  - inversion_clear H as [|? ? Hx H']. inversion_clear H' as [|? ? Hy H].
    inversion_clear H as [|? ? Hz H'].
    cbn [to_sextets].
    repeat (constructor; [Z.to_euclidean_division_equations; lia|]).
    apply IH, H'.
Qed.

(** Regrouping the bits: three bytes split into four sextets come back. *)
Lemma decode_to_sextets P : Forall is_byte P -> decode_sextets (to_sextets P) = P.
Proof.
  unfold is_byte.
  induction P as [| x | x y | x y z P IH] using list_ind3; intros H.
  - reflexivity.
  - inversion_clear H as [|? ? Hx _]. cbn [to_sextets decode_sextets].
    f_equal. Z.to_euclidean_division_equations; lia.
  - inversion_clear H as [|? ? Hx H']. inversion_clear H' as [|? ? Hy _].
    cbn [to_sextets decode_sextets].
    assert (E : (x / 4 * 64 + (x mod 4 * 16 + y / 16)) * 64 + y mod 16 * 4
                = (x * 256 + y) * 4)
      by (Z.to_euclidean_division_equations; lia).
    rewrite E. clear E.
    f_equal; [|f_equal]; Z.to_euclidean_division_equations; lia.
  - inversion_clear H as [|? ? Hx H']. inversion_clear H' as [|? ? Hy H].
    inversion_clear H as [|? ? Hz H'].
    cbn [to_sextets decode_sextets]. rewrite (IH H').
    assert (E : ((x / 4 * 64 + (x mod 4 * 16 + y / 16)) * 64
                 + (y mod 16 * 4 + z / 64)) * 64 + z mod 64
                = (x * 256 + y) * 256 + z)
      by (Z.to_euclidean_division_equations; lia).
    rewrite E. clear E.
    f_equal; [|f_equal; [|f_equal]]; Z.to_euclidean_division_equations; lia.
Qed.

Lemma length_to_sextets P :
  (List.length (to_sextets P) mod 4 <> 1 /\
   (List.length (to_sextets P) + List.length (padding (List.length P))) mod 4 = 0)%nat.
Proof.
  induction P as [| x | x y | x y z P IH] using list_ind3;
    [split; [discriminate|reflexivity].. |].
  cbn [to_sextets List.length]. unfold padding in *.
  replace (S (S (S (List.length P))) mod 3)%nat with (List.length P mod 3)%nat
    by (change (S (S (S (List.length P)))) with (1 * 3 + List.length P)%nat;
        rewrite Nat.add_comm, Nat.Div0.mod_add; reflexivity).
  destruct IH as [IH1 IH2].
  change (S (S (S (S (List.length (to_sextets P))))))
    with (1 * 4 + List.length (to_sextets P))%nat.
  split.
  - rewrite Nat.add_comm, Nat.Div0.mod_add. exact IH1.
  - rewrite <- Nat.add_assoc, Nat.add_comm, Nat.Div0.mod_add. exact IH2.
Qed.

Lemma filter_all {A} (Q : A -> Prop) `{!forall x, Decision (Q x)} (l : list A) :
  Forall Q l -> filter Q l = l.
Proof.
  induction 1 as [|x l Hx _ IH]; [reflexivity|].
  rewrite filter_cons_True by exact Hx. now rewrite IH.
Qed.

(** Trailing padding after characters that are not [=] is removed whole. *)
Lemma strip_padding_body (body pad : jsstring) :
  Forall (fun c => c <> 61) body ->
  pad = [] \/ pad = [61] \/ pad = [61; 61] ->
  strip_padding (body ++ pad) = body.
Proof.
  intros Hb Hp. unfold strip_padding. rewrite rev_app_distr.
  assert (Hhd : forall c r, rev body = c :: r -> (c =? 61) = false).
  { intros c r E. apply Z.eqb_neq.
    apply (proj1 (Forall_forall _ _) Hb), list_elem_of_In.
    rewrite in_rev. rewrite <- list_elem_of_In, E. left. }
  destruct Hp as [-> | [-> | ->]]; simpl.
  - destruct (rev body) as [|c r] eqn:E.
    + now rewrite app_nil_r.
    + rewrite (Hhd c r eq_refl). now rewrite app_nil_r.
  - destruct (rev body) as [|c r] eqn:E.
    + simpl. apply (f_equal (@rev Z)) in E. now rewrite rev_involutive in E.
    + rewrite (Hhd c r eq_refl). rewrite <- E. apply rev_involutive.
  - apply rev_involutive.
Qed.

Lemma padding_cases n : padding n = [] \/ padding n = [61] \/ padding n = [61; 61].
Proof. unfold padding. destruct (n mod 3)%nat as [|[|[|k]]]; auto. Qed.

Lemma b64char_plain vs :
  Forall is_sextet vs ->
  Forall (fun c => is_ascii_whitespace c = false /\ c <> 61) (map b64char vs).
Proof.
  induction 1 as [|v vs Hv _ IH]; simpl; constructor;
    eauto using sextet_plain, sextet_b64char.
Qed.

Lemma trimmed_base64_encode P :
  Forall is_byte P -> trimmed (base64_encode P) = map b64char (to_sextets P).
Proof.
  intros HP. unfold trimmed, base64_encode.
  pose proof (b64char_plain _ (to_sextets_is_sextet P HP)) as Hplain.
  rewrite filter_all.
  - rewrite length_app, length_map.
    rewrite (proj2 (Nat.eqb_eq _ _) (proj2 (length_to_sextets P))).
    apply strip_padding_body, padding_cases.
    eapply Forall_impl; [exact Hplain|]. now intros c [_ Hc].
  - apply Forall_app. split.
    + eapply Forall_impl; [exact Hplain|]. now intros c [Hc _].
    + destruct (padding_cases (List.length P)) as [-> | [-> | ->]];
        repeat constructor.
Qed.

(** Decoding an encoding gives the bytes back. *)
Lemma atob_base64_encode P : Forall is_byte P -> atob (base64_encode P) = Ok P.
Proof.
  intros HP. unfold atob, forgiving_base64_decode. cbv zeta.
  rewrite trimmed_base64_encode by exact HP.
  rewrite length_map.
  rewrite (proj2 (Nat.eqb_neq _ _) (proj1 (length_to_sextets P))).
  rewrite mapM_sextet_b64char by now apply to_sextets_is_sextet.
  simpl. now rewrite decode_to_sextets.
Qed.

(** ** Reading the fields of a container *)

Lemma wav_header_is_byte dl sr nc bps : Forall is_byte (wav_header dl sr nc bps).
Proof.
  unfold wav_header.
  repeat (apply Forall_app; split); try apply le_bytes_is_byte;
    repeat constructor; unfold is_byte; simpl; lia.
Qed.

(** Every field of the table, read back from a container that starts with
    the header: tags as code units, integers little-endian. *)
Lemma wav_header_fields dl sr nc bps (P : list Z) :
  let bytes := wav_header dl sr nc bps ++ P in
  slice 0 4 bytes = js "RIFF" /\
  getUint32 bytes 4 = ToUint32 (36 + dl)%Q /\
  slice 8 4 bytes = js "WAVE" /\
  slice 12 4 bytes = js "fmt " /\
  getUint32 bytes 16 = 16 /\
  getUint16 bytes 20 = 1 /\
  getUint16 bytes 22 = ToUint16 nc /\
  getUint32 bytes 24 = ToUint32 sr /\
  getUint32 bytes 28 = ToUint32 (sr * nc * (bps / 8))%Q /\
  getUint16 bytes 32 = ToUint16 (nc * (bps / 8))%Q /\
  getUint16 bytes 34 = ToUint16 bps /\
  slice 36 4 bytes = js "data" /\
  getUint32 bytes 40 = ToUint32 dl /\
  drop 44 bytes = P.
Proof.
  cbv zeta.
  repeat match goal with
         | |- _ /\ _ => split
         | |- slice _ _ _ = _ => reflexivity
         | |- drop _ _ = _ => reflexivity
         | |- getUint32 _ _ = ToUint32 ?x =>
             transitivity (le_value (le_bytes 4 (ToUint32 x)));
             [reflexivity | apply le_value_u32]
         | |- getUint16 _ _ = ToUint16 ?x =>
             transitivity (le_value (le_bytes 2 (ToUint16 x)));
             [reflexivity | apply le_value_u16]
         | |- getUint32 _ _ = _ => reflexivity
         | |- getUint16 _ _ = _ => reflexivity
         end.
Qed.

(** ** What the callers observe *)

Lemma observe_base64ToUint8Array s (σ : heap) :
  observe (base64ToUint8Array s) σ = atob s.
Proof.
  unfold observe. rewrite run_bind, base64ToUint8Array_run.
  destruct (atob s) as [P|e]; [|reflexivity].
  rewrite contents_cell. now rewrite firstn_all.
Qed.

Lemma observe_createWavHeader dl sr nc bps (σ : heap) :
  observe (createWavHeader dl sr nc bps) σ = Ok (wav_header dl sr nc bps).
Proof.
  unfold observe. rewrite run_bind, createWavHeader_run, contents_cell.
  now rewrite <- (length_wav_header dl sr nc bps), firstn_all.
Qed.

Lemma observe_pcmToWavBlob s sr (σ : heap) :
  observe_blob (pcmToWavBlob s sr) σ =
  match atob s with
  | Ok P =>
      Ok {| blob_bytes := wav_header (num (List.length P)) (default 24000%Q sr) 1%Q 16%Q ++ P;
            type := "audio/wav" |}
  | Throw e => Throw e
  end.
Proof.
  unfold observe_blob. rewrite pcmToWavBlob_run.
  now destruct (atob s).
Qed.

Lemma atob_malformed s : atob s = Throw InvalidCharacterError <-> malformed s.
Proof.
  unfold atob, forgiving_base64_decode, malformed. cbv zeta.
  destruct (Nat.eqb_spec (List.length (trimmed s) mod 4) 1) as [E|E].
  - split; [intros _; now left | reflexivity].
  - destruct (mapM sextet (trimmed s)) as [v|] eqn:Hv; simpl.
    + split; [discriminate|]. intros [H | (c & Hc & Hout)]; [contradiction|].
      exfalso. apply mapM_Some in Hv.
      apply list_elem_of_lookup in Hc as [i Hi].
      destruct (Forall2_lookup_l _ _ _ _ _ Hv Hi) as (y & _ & Hy).
      apply sextet_in_alphabet in Hout. congruence.
    + split; [|reflexivity]. intros _. right.
      apply mapM_None_1, Exists_exists in Hv as (c & Hc & Hn).
      exists c. split; [exact Hc | now apply sextet_in_alphabet].
Qed.

Lemma atob_throws s e : atob s = Throw e -> e = InvalidCharacterError.
Proof. unfold atob. destruct (forgiving_base64_decode s); congruence. Qed.

(** * The claims *)

(** C1. Whenever the base64 input decodes to a byte sequence [P], the
    assembler returns a Blob of exactly [44 + |P|] bytes whose bytes from
    index 44 on are [P], with MIME type audio/wav. *)
Theorem pcmToWavBlob_payload (base64Audio : jsstring) (sampleRate : option number)
    (P : list Z) (σ : heap) :
  observe (base64ToUint8Array base64Audio) σ = Ok P ->
  exists blob,
    observe_blob (pcmToWavBlob base64Audio sampleRate) σ = Ok blob /\
    List.length (blob_bytes blob) = (44 + List.length P)%nat /\
    drop 44 (blob_bytes blob) = P /\
    type blob = "audio/wav"%string.
Proof.
  rewrite observe_base64ToUint8Array, observe_pcmToWavBlob. intros ->.
  eexists. split; [reflexivity|]. cbn [blob_bytes type].
  split; [|split; [|reflexivity]].
  - now rewrite length_app, length_wav_header.
  - apply wav_header_fields.
Qed.

Lemma pcmToWavBlob_payload_witness :
  observe (base64ToUint8Array (js "AAEC")) [] = Ok [0; 1; 2] /\
  exists blob,
    observe_blob (pcmToWavBlob (js "AAEC") None) [] = Ok blob /\
    List.length (blob_bytes blob) = (44 + List.length [0; 1; 2])%nat /\
    drop 44 (blob_bytes blob) = [0; 1; 2] /\
    type blob = "audio/wav"%string.
Proof.
  split; [reflexivity|].
  apply (pcmToWavBlob_payload (js "AAEC") None [0; 1; 2] []). reflexivity.
Defined.

(** C2 (amended).  For every argument the header builder returns exactly
    44 bytes with the four tags, Subchunk1Size 16 and AudioFormat 1 at their
    offsets.  The integer fields, all little-endian, hold the arguments that
    fit them: ChunkSize at 4 is [36 + n] and Subchunk2Size at 40 is [n] for
    a payload length [n >= 0] with [36 + n < 2^32]; NumChannels at 22,
    SampleRate at 24 and BitsPerSample at 34 are the channel count, sample
    rate and bit depth when these are integers within the field; ByteRate at
    28 and BlockAlign at 32 are [sampleRate * channelCount * bitsPerSample/8]
    and [channelCount * bitsPerSample/8] when moreover the bit depth is a
    multiple of 8 and both products fit their fields.  Under these bounds
    the arithmetic of the code is exact. *)
Theorem createWavHeader_layout (payloadLength sampleRate channelCount bitsPerSample : number)
    (σ : heap) :
  exists bytes,
    observe (createWavHeader payloadLength sampleRate channelCount bitsPerSample) σ
      = Ok bytes /\
    List.length bytes = 44%nat /\
    Forall is_byte bytes /\
    slice 0 4 bytes = js "RIFF" /\
    slice 8 4 bytes = js "WAVE" /\
    slice 12 4 bytes = js "fmt " /\
    getUint32 bytes 16 = 16 /\
    getUint16 bytes 20 = 1 /\
    slice 36 4 bytes = js "data" /\
    (forall n : Z, (payloadLength == inject_Z n)%Q -> 0 <= n -> 36 + n < 2 ^ 32 ->
       getUint32 bytes 4 = 36 + n /\ getUint32 bytes 40 = n) /\
    (forall n : Z, (channelCount == inject_Z n)%Q -> 0 <= n < 2 ^ 16 ->
       getUint16 bytes 22 = n) /\
    (forall n : Z, (sampleRate == inject_Z n)%Q -> 0 <= n < 2 ^ 32 ->
       getUint32 bytes 24 = n) /\
    (forall n : Z, (bitsPerSample == inject_Z n)%Q -> 0 <= n < 2 ^ 16 ->
       getUint16 bytes 34 = n) /\
    (forall sr nc B : Z,
       (sampleRate == inject_Z sr)%Q -> (channelCount == inject_Z nc)%Q ->
       (bitsPerSample == inject_Z (8 * B))%Q ->
       0 <= sr < 2 ^ 32 -> 0 <= nc < 2 ^ 16 -> 0 <= B -> 8 * B < 2 ^ 16 ->
       nc * B < 2 ^ 16 -> sr * nc * B < 2 ^ 32 ->
       getUint32 bytes 28 = sr * nc * B /\ getUint16 bytes 32 = nc * B).
Proof.
  exists (wav_header payloadLength sampleRate channelCount bitsPerSample).
  split; [apply observe_createWavHeader|].
  split; [apply length_wav_header|].
  split; [apply wav_header_is_byte|].
  pose proof (wav_header_fields payloadLength sampleRate channelCount bitsPerSample [])
    as F.
  cbv zeta in F. rewrite app_nil_r in F.
  destruct F as (F0 & F4 & F8 & F12 & F16 & F20 & F22 & F24 & F28 & F32 & F34
                 & F36 & F40 & _).
  repeat (split; [assumption|]).
  split; [|split; [|split; [|split]]].
  - intros n Hn H0 H36. split.
    + rewrite F4. apply ToUint_exact; [|lia].
      rewrite Hn. now rewrite inject_Z_plus.
    + rewrite F40. apply ToUint_exact; [assumption|lia].
  - intros n Hn Hr. rewrite F22. now apply ToUint_exact.
  - intros n Hn Hr. rewrite F24. now apply ToUint_exact.
  - intros n Hn Hr. rewrite F34. now apply ToUint_exact.
  - intros sr nc B Hsr Hnc Hbps Rsr Rnc RB R8B Ralign Rrate. split.
    + rewrite F28. apply ToUint_exact; [|nia].
      rewrite Hsr, Hnc, Hbps, !inject_Z_mult. field.
    + rewrite F32. apply ToUint_exact; [|nia].
      rewrite Hnc, Hbps, !inject_Z_mult. field.
Qed.

Lemma createWavHeader_layout_witness :
  exists bytes,
    observe (createWavHeader 48000%Q 24000%Q 1%Q 16%Q) [] = Ok bytes /\
    List.length bytes = 44%nat /\
    getUint32 bytes 4 = 48036 /\ getUint32 bytes 40 = 48000 /\
    getUint16 bytes 22 = 1 /\ getUint32 bytes 24 = 24000 /\
    getUint16 bytes 34 = 16 /\
    getUint32 bytes 28 = 24000 * 1 * 2 /\ getUint16 bytes 32 = 1 * 2.
Proof.
  destruct (createWavHeader_layout 48000%Q 24000%Q 1%Q 16%Q [])
    as (bytes & Hrun & Hlen & _ & _ & _ & _ & _ & _ & _
        & Hsize & Hnc & Hsr & Hbps & Hrate).
  exists bytes. split; [exact Hrun|]. split; [exact Hlen|].
  destruct (Hsize 48000) as [H4 H40]; [reflexivity | lia | lia |].
  split; [exact H4|]. split; [exact H40|].
  split; [apply Hnc; [reflexivity | lia]|].
  split; [apply Hsr; [reflexivity | lia]|].
  split; [apply Hbps; [reflexivity | lia]|].
  apply (Hrate 24000 1 2); first [reflexivity | lia].
Defined.

(** C2 (counterexample).  Not for every argument: a sample rate of 2^32,
    as [pcmToWavBlob(base64Audio, 4294967296)] passes it on, does not fit
    the field at offset 24, which then reads 0. *)
Lemma createWavHeader_sampleRate_wraps :
  exists bytes,
    observe (createWavHeader 0%Q 4294967296%Q 1%Q 16%Q) [] = Ok bytes /\
    getUint32 bytes 24 = 0 /\
    getUint32 bytes 24 <> 4294967296.
Proof.
  rewrite observe_createWavHeader. eexists. split; [reflexivity|].
  split; [vm_compute; reflexivity | vm_compute; discriminate].
Qed.

(** C3 (amended).  The header builder validates nothing and never
    fails: for every payload length, sample rate, channel count and bit
    depth, zero, negative or not a multiple of 8 included, it returns a
    44-byte header; with sample rate 0 the SampleRate and ByteRate fields
    are 0. *)
Theorem createWavHeader_total (payloadLength sampleRate channelCount bitsPerSample : number)
    (σ : heap) :
  (exists bytes,
     observe (createWavHeader payloadLength sampleRate channelCount bitsPerSample) σ
       = Ok bytes /\
     List.length bytes = 44%nat) /\
  (exists bytes,
     observe (createWavHeader payloadLength 0%Q channelCount bitsPerSample) σ
       = Ok bytes /\
     getUint32 bytes 24 = 0 /\ getUint32 bytes 28 = 0).
Proof.
  split.
  - eexists. split; [apply observe_createWavHeader | apply length_wav_header].
  - eexists. split; [apply observe_createWavHeader|].
    pose proof (wav_header_fields payloadLength 0%Q channelCount bitsPerSample []) as F.
    cbv zeta in F. rewrite app_nil_r in F.
    destruct F as (_ & _ & _ & _ & _ & _ & _ & F24 & F28 & _).
    split; [exact F24|]. rewrite F28.
    apply (ToUint_exact 32 _ 0); [|lia].
    now rewrite !Qmult_0_l.
Qed.

(** C3 (counterexample).  With [sampleRate = 0] the builder raises nothing. *)
Lemma createWavHeader_sampleRate_0_no_error :
  ~ exists e, observe (createWavHeader 4%Q 0%Q 1%Q 16%Q) [] = Throw e.
Proof. intros [e H]. vm_compute in H. discriminate H. Qed.

(** C4 (amended).  The defaults are 24000 Hz, one channel and
    16 bits.  The caller can override the sample rate only: it goes to the
    SampleRate field and, doubled, to the ByteRate field; the channel count
    stays 1, the block align 2 and the bit depth 16. *)
Theorem pcmToWavBlob_profile (base64Audio : jsstring) (P : list Z) (σ : heap) :
  observe (base64ToUint8Array base64Audio) σ = Ok P ->
  (exists blob,
     observe_blob (pcmToWavBlob base64Audio None) σ = Ok blob /\
     getUint16 (blob_bytes blob) 22 = 1 /\
     getUint32 (blob_bytes blob) 24 = 24000 /\
     getUint32 (blob_bytes blob) 28 = 48000 /\
     getUint16 (blob_bytes blob) 32 = 2 /\
     getUint16 (blob_bytes blob) 34 = 16) /\
  (forall sampleRate : number, exists blob,
     observe_blob (pcmToWavBlob base64Audio (Some sampleRate)) σ = Ok blob /\
     getUint16 (blob_bytes blob) 22 = 1 /\
     getUint32 (blob_bytes blob) 24 = ToUint32 sampleRate /\
     getUint32 (blob_bytes blob) 28 = ToUint32 (sampleRate * 2)%Q /\
     getUint16 (blob_bytes blob) 32 = 2 /\
     getUint16 (blob_bytes blob) 34 = 16).
Proof.
  rewrite observe_base64ToUint8Array. intros HP.
  assert (G : forall sr, exists blob,
     observe_blob (pcmToWavBlob base64Audio sr) σ = Ok blob /\
     getUint16 (blob_bytes blob) 22 = 1 /\
     getUint32 (blob_bytes blob) 24 = ToUint32 (default 24000%Q sr) /\
     getUint32 (blob_bytes blob) 28 = ToUint32 (default 24000%Q sr * 2)%Q /\
     getUint16 (blob_bytes blob) 32 = 2 /\
     getUint16 (blob_bytes blob) 34 = 16).
  { intros sr. rewrite observe_pcmToWavBlob, HP.
    eexists. split; [reflexivity|]. cbn [blob_bytes].
    pose proof (wav_header_fields (num (List.length P)) (default 24000%Q sr) 1%Q 16%Q P)
      as F. cbv zeta in F.
    destruct F as (_ & _ & _ & _ & _ & _ & F22 & F24 & F28 & F32 & F34 & _).
    split; [exact F22|]. split; [exact F24|].
    split; [|split; [exact F32 | exact F34]].
    rewrite F28. apply ToUint_proper. field. }
  split.
  - apply (G None).
  - intros sampleRate. apply (G (Some sampleRate)).
Qed.

Lemma pcmToWavBlob_profile_witness :
  observe (base64ToUint8Array (js "AAEC")) [] = Ok [0; 1; 2] /\
  exists blob,
    observe_blob (pcmToWavBlob (js "AAEC") (Some 8000%Q)) [] = Ok blob /\
    getUint16 (blob_bytes blob) 22 = 1 /\
    getUint32 (blob_bytes blob) 24 = ToUint32 8000%Q /\
    getUint32 (blob_bytes blob) 28 = ToUint32 (8000 * 2)%Q /\
    getUint16 (blob_bytes blob) 32 = 2 /\
    getUint16 (blob_bytes blob) 34 = 16.
Proof.
  split; [reflexivity|].
  apply (pcmToWavBlob_profile (js "AAEC") [0; 1; 2] []). reflexivity.
Defined.

(** C4 (counterexample).  No call of the assembler yields a header for two
    channels: the channel count is not an argument. *)
Lemma pcmToWavBlob_channels_fixed :
  ~ exists (base64Audio : jsstring) (sampleRate : option number) (σ : heap) blob,
      observe_blob (pcmToWavBlob base64Audio sampleRate) σ = Ok blob /\
      getUint16 (blob_bytes blob) 22 = 2.
Proof.
  intros (s & sr & σ & blob & Hrun & H2).
  rewrite observe_pcmToWavBlob in Hrun.
  destruct (atob s) as [P|e]; [|discriminate].
  assert (E : blob =
    {| blob_bytes := wav_header (num (List.length P)) (default 24000%Q sr) 1%Q 16%Q ++ P;
       type := "audio/wav" |}) by congruence.
  subst blob. cbn [blob_bytes] in H2.
  pose proof (wav_header_fields (num (List.length P)) (default 24000%Q sr) 1%Q 16%Q P)
    as F. cbv zeta in F.
  destruct F as (_ & _ & _ & _ & _ & _ & F22 & _).
  rewrite F22 in H2. vm_compute in H2. discriminate H2.
Qed.

(** C5 (amended).  The decoder fails, with the host's
    InvalidCharacterError, exactly on the malformed inputs: those that, once
    the ASCII whitespace and (on a length that is a multiple of four) one or
    two trailing [=] are removed, have a length of 1 modulo 4 or contain a
    code unit outside the base64 alphabet.  Every other input decodes;
    ["!!invalid!!"] fails; and the decoded bytes are not inspected: every
    byte sequence is the decoding of some input. *)
Theorem base64ToUint8Array_failure (base64 : jsstring) (σ : heap) :
  ((exists e, observe (base64ToUint8Array base64) σ = Throw e) <-> malformed base64) /\
  (forall e, observe (base64ToUint8Array base64) σ = Throw e -> e = InvalidCharacterError) /\
  (~ malformed base64 ->
     exists P, observe (base64ToUint8Array base64) σ = Ok P /\ Forall is_byte P) /\
  observe (base64ToUint8Array (js "!!invalid!!")) σ = Throw InvalidCharacterError /\
  (forall P, Forall is_byte P ->
     exists s, ~ malformed s /\ observe (base64ToUint8Array s) σ = Ok P).
Proof.
  rewrite !observe_base64ToUint8Array.
  split; [|split; [|split; [|split]]].
  - rewrite <- atob_malformed. split.
    + intros [e He]. now rewrite (atob_throws _ _ He) in He.
    + eauto.
  - apply atob_throws.
  - intros Hm. destruct (atob base64) as [P|e] eqn:E.
    + exists P. eauto using atob_is_byte.
    + exfalso. apply Hm, atob_malformed. now rewrite (atob_throws _ _ E) in E.
  - reflexivity.
  - intros P HP. exists (base64_encode P).
    rewrite observe_base64ToUint8Array, <- atob_malformed, atob_base64_encode by exact HP.
    split; [discriminate | reflexivity].
Qed.

Lemma base64ToUint8Array_failure_witness :
  malformed (js "A") /\
  ~ malformed (js "TWFu") /\
  observe (base64ToUint8Array (js "TWFu")) [] = Ok [77; 97; 110].
Proof.
  pose proof (base64ToUint8Array_failure (js "A") []) as (HA & _).
  pose proof (base64ToUint8Array_failure (js "TWFu") []) as (HT & _).
  split; [|split].
  - apply HA. exists InvalidCharacterError. reflexivity.
  - intros Hm. apply HT in Hm. destruct Hm as [e He]. discriminate He.
  - reflexivity.
Defined.

(** C5 (counterexample).  A space is outside the base64 alphabet (and is not
    padding), yet the input decodes. *)
Lemma base64ToUint8Array_accepts_whitespace :
  (exists c, c ∈ js "AAAA " /\ ~ in_alphabet c /\ c <> 61) /\
  observe (base64ToUint8Array (js "AAAA ")) [] = Ok [0; 0; 0].
Proof.
  split; [|reflexivity].
  exists 32. split; [|split].
  - apply list_elem_of_In. simpl. tauto.
  - unfold in_alphabet. lia.
  - lia.
Qed.

(** C6 (amended).  For a sample rate, a channel count and a bit depth
    [8 * B] that are non-negative integers within their fields, with
    products that fit theirs, the ByteRate field is
    [sampleRate * channelCount * B] and the BlockAlign field
    [channelCount * B].  A payload of 48,000 zero bytes with the default
    profile gives a container of 48,044 bytes with ByteRate 48,000 and
    BlockAlign 2. *)
Theorem byte_rate_block_align (payloadLength : number) (sr nc B : Z)
    (base64Audio : jsstring) (σ : heap) :
  0 <= sr < 2 ^ 32 -> 0 <= nc < 2 ^ 16 -> 0 <= B -> 8 * B < 2 ^ 16 ->
  nc * B < 2 ^ 16 -> sr * nc * B < 2 ^ 32 ->
  (exists bytes,
     observe (createWavHeader payloadLength (inject_Z sr) (inject_Z nc)
                (inject_Z (8 * B))) σ = Ok bytes /\
     getUint32 bytes 28 = sr * nc * B /\
     getUint16 bytes 32 = nc * B) /\
  (observe (base64ToUint8Array base64Audio) σ = Ok (replicate (Z.to_nat 48000) 0) ->
   exists blob,
     observe_blob (pcmToWavBlob base64Audio None) σ = Ok blob /\
     Z.of_nat (List.length (blob_bytes blob)) = 48044 /\
     getUint32 (blob_bytes blob) 28 = 48000 /\
     getUint16 (blob_bytes blob) 32 = 2).
Proof.
  intros Rsr Rnc RB R8B Ralign Rrate. split.
  - eexists. split; [apply observe_createWavHeader|].
    pose proof (wav_header_fields payloadLength (inject_Z sr) (inject_Z nc)
                  (inject_Z (8 * B)) []) as F.
    cbv zeta in F. rewrite app_nil_r in F.
    destruct F as (_ & _ & _ & _ & _ & _ & _ & _ & F28 & F32 & _).
    split.
    + rewrite F28. apply ToUint_exact; [|nia].
      rewrite !inject_Z_mult. field.
    + rewrite F32. apply ToUint_exact; [|nia].
      rewrite !inject_Z_mult. field.
  - rewrite observe_base64ToUint8Array, observe_pcmToWavBlob. intros ->.
    eexists. split; [reflexivity|]. cbn [blob_bytes].
    split; [rewrite length_app, length_wav_header, length_replicate; lia|].
    match goal with
    | |- context [wav_header ?a ?b ?c ?d ++ ?p] =>
        pose proof (wav_header_fields a b c d p) as F
    end.
    cbv zeta in F.
    destruct F as (_ & _ & _ & _ & _ & _ & _ & _ & F28 & F32 & _).
    split; [rewrite F28 | rewrite F32]; reflexivity.
Qed.

Lemma byte_rate_block_align_witness :
  let silence := replicate (Z.to_nat 48000) 0 in
  observe (base64ToUint8Array (base64_encode silence)) [] = Ok silence /\
  (exists bytes,
     observe (createWavHeader 48000%Q (inject_Z 24000) (inject_Z 1)
                (inject_Z (8 * 2))) [] = Ok bytes /\
     getUint32 bytes 28 = 24000 * 1 * 2 /\ getUint16 bytes 32 = 1 * 2) /\
  (exists blob,
     observe_blob (pcmToWavBlob (base64_encode silence) None) [] = Ok blob /\
     Z.of_nat (List.length (blob_bytes blob)) = 48044 /\
     getUint32 (blob_bytes blob) 28 = 48000 /\
     getUint16 (blob_bytes blob) 32 = 2).
Proof.
  intros silence.
  assert (Hdec : observe (base64ToUint8Array (base64_encode silence)) [] = Ok silence).
  { rewrite observe_base64ToUint8Array. apply atob_base64_encode.
    apply Forall_replicate. unfold is_byte. lia. }
  destruct (byte_rate_block_align 48000%Q 24000 1 2 (base64_encode silence) [])
    as [Hheader Hclip]; try lia.
  split; [exact Hdec|]. split; [exact Hheader | exact (Hclip Hdec)].
Defined.

(** C6 (counterexample).  Not for every argument: at 2^31 Hz, two channels
    and 32 bits the byte rate is 2^34, which does not fit the field; it
    reads 0. *)
Lemma byte_rate_wraps :
  exists bytes,
    observe (createWavHeader 0%Q 2147483648%Q 2%Q 32%Q) [] = Ok bytes /\
    getUint32 bytes 28 = 0 /\
    getUint32 bytes 28 <> 2147483648 * 2 * (32 / 8).
Proof.
  rewrite observe_createWavHeader. eexists. split; [reflexivity|].
  split; [vm_compute; reflexivity | vm_compute; discriminate].
Qed.

(** C7. For every input that decodes, the container starts with a header
    whose bytes 0-3 are "RIFF", 8-11 "WAVE", 12-15 "fmt " and 36-39
    "data". *)
Theorem pcmToWavBlob_tags (base64Audio : jsstring) (sampleRate : option number)
    (P : list Z) (σ : heap) :
  observe (base64ToUint8Array base64Audio) σ = Ok P ->
  exists blob,
    observe_blob (pcmToWavBlob base64Audio sampleRate) σ = Ok blob /\
    slice 0 4 (blob_bytes blob) = js "RIFF" /\
    slice 8 4 (blob_bytes blob) = js "WAVE" /\
    slice 12 4 (blob_bytes blob) = js "fmt " /\
    slice 36 4 (blob_bytes blob) = js "data".
Proof.
  rewrite observe_base64ToUint8Array, observe_pcmToWavBlob. intros ->.
  eexists. split; [reflexivity|]. cbn [blob_bytes].
  repeat split; reflexivity.
Qed.

Lemma pcmToWavBlob_tags_witness :
  observe (base64ToUint8Array (js "/+8=")) [] = Ok [255; 239] /\
  exists blob,
    observe_blob (pcmToWavBlob (js "/+8=") (Some 16000%Q)) [] = Ok blob /\
    slice 0 4 (blob_bytes blob) = js "RIFF" /\
    slice 8 4 (blob_bytes blob) = js "WAVE" /\
    slice 12 4 (blob_bytes blob) = js "fmt " /\
    slice 36 4 (blob_bytes blob) = js "data".
Proof.
  split; [reflexivity|].
  apply (pcmToWavBlob_tags (js "/+8=") (Some 16000%Q) [255; 239] []). reflexivity.
Defined.

(** C8. Decoding the standard base64 encoding of a byte sequence returns
    the byte sequence. *)
Theorem base64_round_trip (P : list Z) (σ : heap) :
  Forall is_byte P ->
  observe (base64ToUint8Array (base64_encode P)) σ = Ok P.
Proof.
  intros HP. rewrite observe_base64ToUint8Array. now apply atob_base64_encode.
Qed.

Lemma base64_round_trip_witness :
  Forall is_byte [72; 105; 0; 255; 128] /\
  observe (base64ToUint8Array (base64_encode [72; 105; 0; 255; 128])) []
    = Ok [72; 105; 0; 255; 128].
Proof.
  assert (H : Forall is_byte [72; 105; 0; 255; 128])
    by (repeat constructor; unfold is_byte; lia).
  split; [exact H|].
  apply (base64_round_trip [72; 105; 0; 255; 128] [] H).
Defined.

(** C9. The three operations are deterministic and free of side effects:
    run from any two heaps, whatever earlier calls left there, a call with
    the same arguments gives the same bytes (or the same exception); and a
    call leaves every buffer that existed before it unchanged, its only
    effect being the allocation of the buffers it returns. *)
Theorem calls_are_pure (base64 : jsstring)
    (payloadLength sampleRate channelCount bitsPerSample : number)
    (rate : option number) (σ1 σ2 : heap) :
  observe (base64ToUint8Array base64) σ1 = observe (base64ToUint8Array base64) σ2 /\
  observe (createWavHeader payloadLength sampleRate channelCount bitsPerSample) σ1
    = observe (createWavHeader payloadLength sampleRate channelCount bitsPerSample) σ2 /\
  observe_blob (pcmToWavBlob base64 rate) σ1 = observe_blob (pcmToWavBlob base64 rate) σ2 /\
  (forall arr σ', run (base64ToUint8Array base64) σ1 = Ok (arr, σ') ->
     σ1 `prefix_of` σ') /\
  (forall arr σ',
     run (createWavHeader payloadLength sampleRate channelCount bitsPerSample) σ1
       = Ok (arr, σ') ->
     σ1 `prefix_of` σ') /\
  (forall blob σ', run (pcmToWavBlob base64 rate) σ1 = Ok (blob, σ') ->
     σ1 `prefix_of` σ' /\
     observe_blob (pcmToWavBlob base64 rate) σ' = Ok blob).
Proof.
  rewrite !observe_base64ToUint8Array, !observe_createWavHeader, !observe_pcmToWavBlob.
  repeat (split; [reflexivity|]).
  split; [|split].
  - intros arr σ'. rewrite base64ToUint8Array_run.
    destruct (atob base64) as [P|e]; [|discriminate].
    intros [= _ <-]. now eexists.
  - intros arr σ'. rewrite createWavHeader_run.
    intros [= _ <-]. now eexists.
  - intros blob σ' Hrun. rewrite observe_pcmToWavBlob.
    rewrite pcmToWavBlob_run in Hrun.
    destruct (atob base64) as [P|e]; [|discriminate].
    cbv zeta in Hrun. split.
    + assert (E : σ' = σ1 ++ [P; wav_header (num (List.length P)) (default 24000%Q rate) 1%Q 16%Q;
                        wav_header (num (List.length P)) (default 24000%Q rate) 1%Q 16%Q ++ P])
        by congruence.
      rewrite E. now eexists.
    + congruence.
Qed.

Lemma calls_are_pure_witness :
  exists blob σ',
    run (pcmToWavBlob (js "AAEC") None) [[1; 2; 3]] = Ok (blob, σ') /\
    [[1; 2; 3]] `prefix_of` σ' /\
    observe_blob (pcmToWavBlob (js "AAEC") None) σ' = Ok blob.
Proof.
  destruct (run (pcmToWavBlob (js "AAEC") None) [[1; 2; 3]]) as [[blob σ']|e] eqn:Hrun.
  - exists blob, σ'. split; [reflexivity|].
    destruct (calls_are_pure (js "AAEC") 0%Q 0%Q 0%Q 0%Q None [[1; 2; 3]] [])
      as (_ & _ & _ & _ & _ & Hblob).
    exact (Hblob blob σ' Hrun).
  - vm_compute in Hrun. discriminate Hrun.
Defined.

(** C10. When the input decodes to no byte at all, the assembler raises
    nothing: it returns a container of 44 bytes, the header alone, whose
    ChunkSize field is 36 and whose Subchunk2Size field is 0. *)
Theorem pcmToWavBlob_empty_payload (base64Audio : jsstring) (sampleRate : option number)
    (σ : heap) :
  observe (base64ToUint8Array base64Audio) σ = Ok [] ->
  exists blob,
    observe_blob (pcmToWavBlob base64Audio sampleRate) σ = Ok blob /\
    List.length (blob_bytes blob) = 44%nat /\
    blob_bytes blob = wav_header 0%Q (default 24000%Q sampleRate) 1%Q 16%Q /\
    getUint32 (blob_bytes blob) 4 = 36 /\
    getUint32 (blob_bytes blob) 40 = 0.
Proof.
  rewrite observe_base64ToUint8Array, observe_pcmToWavBlob. intros ->.
  eexists. split; [reflexivity|]. cbn [blob_bytes].
  rewrite app_nil_r. repeat split; reflexivity.
Qed.

Lemma pcmToWavBlob_empty_payload_witness :
  observe (base64ToUint8Array []) [] = Ok [] /\
  exists blob,
    observe_blob (pcmToWavBlob [] None) [] = Ok blob /\
    List.length (blob_bytes blob) = 44%nat /\
    blob_bytes blob = wav_header 0%Q (default 24000%Q None) 1%Q 16%Q /\
    getUint32 (blob_bytes blob) 4 = 36 /\
    getUint32 (blob_bytes blob) 40 = 0.
Proof.
  split; [reflexivity|].
  apply (pcmToWavBlob_empty_payload [] None []). reflexivity.
Defined.

(** * Further properties of the code *)

Example formatTime_75 : formatTime (Finite 75%Q) = js "01:15".
Proof. reflexivity. Qed.

Example formatTime_fraction : formatTime (Finite (7199 # 2)) = js "59:59".
Proof. reflexivity. Qed.

Example formatTime_long : formatTime (Finite 6000%Q) = js "100:00".
Proof. reflexivity. Qed.

Example formatTime_minus_61 : formatTime (Finite (-61)%Q) = js "-2:-1".
Proof. reflexivity. Qed.

Example formatTime_NaN : formatTime NaN = js "00:00".
Proof. reflexivity. Qed.

Example split_data_url :
  split 44 (js "data:audio/webm;base64,TWFu") = [js "data:audio/webm;base64"; js "TWFu"].
Proof. reflexivity. Qed.

Example playPCMAudio_two_samples :
  run (playPCMAudio_channelData (js "AECAgA==")) []
  = Ok ([16384 # 32768; -32640 # 32768], [[0; 64; 128; 128]]).
Proof. vm_compute. reflexivity. Qed.

(** ** [formatTime] *)

Lemma Math_floor_div_60 (x : number) : Math_floor (x / 60)%Q = Math_floor x / 60.
Proof.
  destruct x as [a b]. unfold Math_floor. simpl.
  rewrite Z.mul_1_r, Pos2Z.inj_mul. now rewrite Z.div_div by lia.
Qed.

Lemma truncate_nonneg (x : number) : (0 <= x)%Q -> truncate x = Math_floor x.
Proof.
  destruct x as [a b]. unfold Qle, truncate, Math_floor. simpl. intros H.
  apply Z.quot_div_nonneg; lia.
Qed.

Lemma Math_floor_remainder_60 (x : number) :
  (0 <= x)%Q -> Math_floor (remainder x 60%Q) = Math_floor x mod 60.
Proof.
  intros Hx. unfold remainder.
  rewrite truncate_nonneg.
  - rewrite Math_floor_div_60.
    destruct x as [a b]. unfold Math_floor. simpl.
    rewrite !Pos.mul_1_r, Z.mul_1_r, Z.div_add by lia.
    rewrite (Z.mod_eq (a / Z.pos b) 60) by lia. lia.
  - destruct x as [a b]. unfold Qle in *. simpl in *. lia.
Qed.

Lemma Math_floor_nonneg (x : number) : (0 <= x)%Q -> 0 <= Math_floor x.
Proof.
  destruct x as [a b]. unfold Qle, Math_floor. simpl. intros H.
  apply Z.div_pos; lia.
Qed.

Lemma Math_floor_lt (x : number) (n : Z) : (x < inject_Z n)%Q <-> Math_floor x < n.
Proof.
  destruct x as [a b]. unfold Qlt, Math_floor. simpl. rewrite Z.mul_1_r.
  split; intros H.
  - apply Z.div_lt_upper_bound; lia.
  - destruct (Z.lt_ge_cases a (n * Z.pos b)) as [Hlt|Hge]; [exact Hlt|].
    exfalso. assert (n <= a / Z.pos b) by (apply Z.div_le_lower_bound; lia). lia.
Qed.

Lemma digits_value_snoc (l : jsstring) (c : Z) :
  digits_value (l ++ [c]) = 10 * digits_value l + (c - 48).
Proof. unfold digits_value. now rewrite fold_left_app. Qed.

Lemma digits_value_zero (l : jsstring) : digits_value (48 :: l) = digits_value l.
Proof. reflexivity. Qed.

(** With fuel for all its bits, a number comes back from its digits. *)
Lemma decimal_value (fuel : nat) : forall n,
  0 <= n < 2 ^ Z.of_nat fuel -> digits_value (decimal fuel n) = n.
Proof.
  induction fuel as [|fuel IH]; intros n Hn.
  - change (2 ^ Z.of_nat 0) with 1 in Hn.
    assert (n = 0) as -> by lia. reflexivity.
  - cbn [decimal]. destruct (Z.ltb_spec n 10) as [Hlt|Hge].
    + unfold digits_value. simpl. lia.
    + rewrite digits_value_snoc, IH.
      * rewrite (Z.div_mod n 10) at 3 by lia. lia.
      * rewrite Nat2Z.inj_succ, Z.pow_succ_r in Hn by lia.
        split; [apply Z.div_pos; lia|].
        apply Z.div_lt_upper_bound; lia.
Qed.

Lemma decimal_is_digit (fuel : nat) : forall n,
  0 <= n -> Forall is_digit (decimal fuel n).
Proof.
  unfold is_digit.
  induction fuel as [|fuel IH]; intros n Hn; cbn [decimal]; [constructor|].
  destruct (Z.ltb_spec n 10) as [Hlt|Hge].
  - repeat constructor; lia.
  - apply Forall_app. split.
    + apply IH, Z.div_pos; lia.
    + repeat constructor; Z.to_euclidean_division_equations; lia.
Qed.

Lemma decimal_nonempty (fuel : nat) (n : Z) : (1 <= List.length (decimal (S fuel) n))%nat.
Proof.
  cbn [decimal]. destruct (n <? 10); [simpl; lia|].
  rewrite length_app. simpl. lia.
Qed.

Lemma fuel_enough (n : Z) : 0 <= n -> n < 2 ^ Z.of_nat (S (Z.to_nat (Z.log2 n))).
Proof.
  intros Hn. rewrite Nat2Z.inj_succ, Z2Nat.id by apply Z.log2_nonneg.
  destruct (Z.eq_dec n 0) as [->|Hz]; [reflexivity|].
  apply Z.log2_spec. lia.
Qed.

Lemma Number_toString_value (n : Z) : 0 <= n -> digits_value (Number_toString n) = n.
Proof.
  intros Hn. unfold Number_toString.
  destruct (Z.ltb_spec n 0); [lia|].
  apply decimal_value. split; [exact Hn | now apply fuel_enough].
Qed.

Lemma Number_toString_is_digit (n : Z) : 0 <= n -> Forall is_digit (Number_toString n).
Proof.
  intros Hn. unfold Number_toString.
  destruct (Z.ltb_spec n 0); [lia|]. now apply decimal_is_digit.
Qed.

Lemma Number_toString_negative (n : Z) :
  n < 0 -> exists d, Number_toString n = 45 :: d /\ (1 <= List.length d)%nat.
Proof.
  intros Hn. unfold Number_toString.
  destruct (Z.ltb_spec n 0); [|lia].
  eexists. split; [reflexivity | apply decimal_nonempty].
Qed.

Lemma log2_fuel (n k : Z) : 2 ^ k <= n -> 0 <= k -> (Z.to_nat k <= Z.to_nat (Z.log2 n))%nat.
Proof.
  intros Hn Hk. apply Z2Nat.inj_le; [lia | apply Z.log2_nonneg |].
  rewrite <- (Z.log2_pow2 k) by lia. apply Z.log2_le_mono. exact Hn.
Qed.

(** One or two digits, padded to two. *)
Lemma padStart_two_digits (n : Z) :
  0 <= n < 100 ->
  padStart (Number_toString n) 2 (js "0") = [48 + n / 10; 48 + n mod 10].
Proof.
  intros Hn. unfold Number_toString.
  destruct (Z.ltb_spec n 0); [lia|].
  destruct (Z.ltb_spec n 10) as [Hlt|Hge].
  - cbn [decimal]. destruct (Z.ltb_spec n 10); [|lia].
    unfold padStart. simpl.
    rewrite Z.div_small, Z.mod_small by lia. reflexivity.
  - pose proof (log2_fuel n 3 ltac:(simpl; lia) ltac:(lia)) as Hfuel.
    destruct (Z.to_nat (Z.log2 n)) as [|fuel]; [simpl in Hfuel; lia|].
    cbn [decimal]. destruct (Z.ltb_spec n 10); [lia|].
    destruct (Z.ltb_spec (n / 10) 10) as [_|Hbig];
      [|exfalso; Z.to_euclidean_division_equations; lia].
    reflexivity.
Qed.

(** Three digits or more stay as they are. *)
Lemma Number_toString_long (n : Z) :
  100 <= n -> (3 <= List.length (Number_toString n))%nat.
Proof.
  intros Hn. unfold Number_toString.
  destruct (Z.ltb_spec n 0); [lia|].
  pose proof (log2_fuel n 6 ltac:(simpl; lia) ltac:(lia)) as Hfuel.
  destruct (Z.to_nat (Z.log2 n)) as [|[|fuel]]; [simpl in Hfuel; lia..|].
  cbn [decimal]. destruct (Z.ltb_spec n 10); [lia|].
  destruct (Z.ltb_spec (n / 10) 10) as [Hsmall|_];
    [exfalso; Z.to_euclidean_division_equations; lia|].
  rewrite !length_app. pose proof (decimal_nonempty fuel (n / 10 / 10)) as Hlen.
  cbn [decimal] in Hlen. simpl. lia.
Qed.

Lemma padStart_long (s pad : jsstring) (n : nat) :
  (n <= List.length s)%nat -> padStart s n pad = s.
Proof.
  intros H. unfold padStart.
  now replace (n - List.length s)%nat with 0%nat by lia.
Qed.

(** For a non-negative time: the padded minutes, a colon, and the seconds
    within the minute as exactly two digits. *)
Lemma formatTime_nonneg (x : number) :
  (0 <= x)%Q ->
  formatTime (Finite x)
  = padStart (Number_toString (Math_floor x / 60)) 2 (js "0")
    ++ [58; 48 + Math_floor x mod 60 / 10; 48 + Math_floor x mod 60 mod 10].
Proof.
  intros Hx. unfold formatTime. cbn [isFinite isNaN negb orb].
  rewrite Math_floor_div_60, Math_floor_remainder_60 by exact Hx.
  rewrite (padStart_two_digits (Math_floor x mod 60))
    by (pose proof (Z.mod_pos_bound (Math_floor x) 60); lia).
  reflexivity.
Qed.

Lemma padded_minutes (m : Z) :
  0 <= m ->
  digits_value (padStart (Number_toString m) 2 (js "0")) = m /\
  (m < 100 -> List.length (padStart (Number_toString m) 2 (js "0")) = 2%nat) /\
  (100 <= m -> (3 <= List.length (padStart (Number_toString m) 2 (js "0")))%nat).
Proof.
  intros Hm. destruct (Z.lt_ge_cases m 100) as [Hlt|Hge].
  - rewrite padStart_two_digits by lia.
    split; [|split; [reflexivity | lia]].
    unfold digits_value. simpl. rewrite (Z.div_mod m 10) at 3 by lia. lia.
  - pose proof (Number_toString_long m Hge) as Hlen.
    rewrite padStart_long by lia.
    split; [now apply Number_toString_value | split; [lia | intros _; exact Hlen]].
Qed.

Lemma clock_value_app (M : jsstring) (d1 d2 : Z) :
  clock_value (M ++ [58; d1; d2]) = 60 * digits_value M + digits_value [d1; d2].
Proof.
  unfold clock_value. rewrite length_app. cbn [List.length].
  replace (List.length M + 3 - 3)%nat with (List.length M) by lia.
  replace (List.length M + 3 - 2)%nat with (List.length M + 1)%nat by lia.
  rewrite take_app_length.
  rewrite drop_app_ge, Nat.add_sub' by lia. reflexivity.
Qed.

Lemma formatTime_value (x : number) :
  (0 <= x)%Q -> clock_value (formatTime (Finite x)) = Math_floor x.
Proof.
  intros Hx. pose proof (Math_floor_nonneg x Hx) as Hf.
  rewrite formatTime_nonneg, clock_value_app by exact Hx.
  destruct (padded_minutes (Math_floor x / 60)) as (-> & _);
    [apply Z.div_pos; lia|].
  unfold digits_value. simpl.
  Z.to_euclidean_division_equations; lia.
Qed.

Lemma formatTime_negative_head (x : number) :
  (x < 0)%Q -> head (formatTime (Finite x)) = Some 45.
Proof.
  intros Hx. unfold formatTime. cbn [isFinite isNaN negb orb].
  rewrite Math_floor_div_60.
  assert (Hneg : Math_floor x / 60 < 0).
  { apply Z.div_lt_upper_bound; [lia|].
    apply (Math_floor_lt x 0) in Hx. lia. }
  destruct (Number_toString_negative _ Hneg) as (d & -> & Hd).
  rewrite padStart_long by (simpl; lia). reflexivity.
Qed.

(** X1. For a time from 0 up to, not including, 100 minutes, fractions of a
    second included, [formatTime] gives exactly five code units: the two
    digits of the whole minutes, a colon, the two digits of the whole
    seconds within the minute. *)
Theorem formatTime_clock (x : number) :
  (0 <= x)%Q -> (x < 6000)%Q ->
  let m := Math_floor x / 60 in
  let s := Math_floor x mod 60 in
  formatTime (Finite x) = [48 + m / 10; 48 + m mod 10; 58; 48 + s / 10; 48 + s mod 10].
Proof.
  intros Hx Hlt. cbv zeta.
  pose proof (Math_floor_nonneg x Hx) as Hf.
  apply (Math_floor_lt x 6000) in Hlt.
  rewrite formatTime_nonneg by exact Hx.
  rewrite padStart_two_digits; [reflexivity|].
  split; [apply Z.div_pos; lia | apply Z.div_lt_upper_bound; lia].
Qed.

Lemma formatTime_clock_witness :
  formatTime (Finite (151 # 2)) = js "01:15".
Proof.
  apply (formatTime_clock (151 # 2)); unfold Qle, Qlt; simpl; lia.
Defined.

(** X2. The display never loses time: for a non-negative time (below 2^53
    seconds, where the arithmetic of doubles is that of the model), reading
    the minutes before the colon and the two digits after it gives back the
    whole seconds; the display has five code units below 100 minutes and
    more from there on, the minutes being neither cut nor carried into
    hours. *)
Theorem formatTime_round_trip (x : number) :
  (0 <= x)%Q -> Math_floor x < 2 ^ 53 ->
  clock_value (formatTime (Finite x)) = Math_floor x /\
  ((x < 6000)%Q -> List.length (formatTime (Finite x)) = 5%nat) /\
  ((6000 <= x)%Q -> (6 <= List.length (formatTime (Finite x)))%nat).
Proof.
  intros Hx _. pose proof (Math_floor_nonneg x Hx) as Hf.
  split; [now apply formatTime_value|].
  rewrite formatTime_nonneg, length_app by exact Hx. cbn [List.length].
  destruct (padded_minutes (Math_floor x / 60)) as (_ & Hshort & Hlong);
    [apply Z.div_pos; lia|].
  split.
  - intros Hlt. apply (Math_floor_lt x 6000) in Hlt.
    rewrite Hshort; [reflexivity | apply Z.div_lt_upper_bound; lia].
  - intros Hge.
    assert (6000 <= Math_floor x).
    { destruct (Z.lt_ge_cases (Math_floor x) 6000) as [Hlt|H]; [|exact H].
      apply (Math_floor_lt x 6000) in Hlt. exfalso.
      apply (Qlt_not_le _ _ Hlt). exact Hge. }
    assert (100 <= Math_floor x / 60) by (apply Z.div_le_lower_bound; lia).
    specialize (Hlong ltac:(assumption)). lia.
Qed.

Lemma formatTime_round_trip_witness :
  clock_value (formatTime (Finite 7325%Q)) = 7325 /\
  (6 <= List.length (formatTime (Finite 7325%Q)))%nat.
Proof.
  destruct (formatTime_round_trip 7325%Q) as (Hv & _ & Hlong).
  - unfold Qle; simpl; lia.
  - vm_compute. reflexivity.
  - split; [exact Hv|]. apply Hlong. unfold Qle; simpl; lia.
Defined.

(** X3. [formatTime] answers "00:00" for NaN and both infinities, and for a
    finite time exactly when it is at least 0 and less than one second. *)
Theorem formatTime_zero (seconds : jsnum) :
  formatTime seconds = js "00:00" <->
  match seconds with
  | Finite x => (0 <= x)%Q /\ (x < 1)%Q
  | _ => True
  end.
Proof.
  destruct seconds as [x| | |]; try (split; [intros _; exact I | reflexivity]).
  split.
  - intros H. destruct (Qlt_le_dec x 0) as [Hneg|Hpos].
    + apply formatTime_negative_head in Hneg. rewrite H in Hneg. discriminate Hneg.
    + split; [exact Hpos|]. apply (Math_floor_lt x 1).
      rewrite <- (formatTime_value x Hpos), H. reflexivity.
  - intros [Hpos Hlt]. pose proof (Math_floor_nonneg x Hpos) as Hf.
    apply (Math_floor_lt x 1) in Hlt.
    rewrite formatTime_nonneg by exact Hpos.
    replace (Math_floor x) with 0 by lia. reflexivity.
Qed.

(** X4. A negative time is not clamped: for a time of at most -2^-1022
    seconds (every negative double that is not subnormal, so that the
    division by 60 does not underflow to zero) the result starts with a
    minus sign, and is never of the form MM:SS. *)
Theorem formatTime_negative (x : number) :
  (x <= - (1 # 2 ^ 1022))%Q -> exists rest, formatTime (Finite x) = 45 :: rest.
Proof.
  intros Hle.
  assert (Hx : (x < 0)%Q).
  { eapply Qle_lt_trans; [exact Hle|].
    generalize (2 ^ 1022)%positive. intros p. unfold Qlt. simpl. lia. }
  pose proof (formatTime_negative_head x Hx) as H.
  destruct (formatTime (Finite x)) as [|c rest]; [discriminate H|].
  injection H as ->. now exists rest.
Qed.

Lemma formatTime_negative_witness :
  exists rest, formatTime (Finite (-1 # 2)) = 45 :: rest.
Proof.
  apply (formatTime_negative (-1 # 2)).
  unfold Qle. simpl. apply Z.lt_le_incl. reflexivity.
Defined.

(** ** [blobToBase64] *)

Lemma split_no_sep (sep : Z) (s : jsstring) :
  Forall (fun c => c <> sep) s -> split sep s = [s].
Proof.
  induction 1 as [|c s Hc _ IH]; [reflexivity|].
  cbn [split]. rewrite (proj2 (Z.eqb_neq c sep) Hc), IH. reflexivity.
Qed.

Lemma split_app (sep : Z) (h r : jsstring) :
  Forall (fun c => c <> sep) h -> split sep (h ++ sep :: r) = h :: split sep r.
Proof.
  induction 1 as [|c h Hc _ IH]; cbn [split app].
  - now rewrite Z.eqb_refl.
  - rewrite (proj2 (Z.eqb_neq c sep) Hc), IH. reflexivity.
Qed.

Lemma base64_encode_no_comma (P : list Z) :
  Forall is_byte P -> Forall (fun c => c <> 44) (base64_encode P).
Proof.
  intros HP. unfold base64_encode. apply Forall_app. split.
  - pose proof (to_sextets_is_sextet P HP) as Hs.
    induction Hs as [|v vs Hv _ IH]; simpl; constructor; [|exact IH].
    intros E. pose proof (sextet_b64char v Hv) as Hv'. rewrite E in Hv'.
    discriminate Hv'.
  - destruct (padding_cases (List.length P)) as [-> | [-> | ->]];
      repeat constructor; lia || idtac.
Qed.

(** X5. When the part of the data URL before the payload has no comma (as
    with [data:<type>;base64] for a media type without commas),
    [blobToBase64] resolves to the base64 text alone, and
    [base64ToUint8Array] decodes that text to the bytes that were
    encoded. *)
Theorem blobToBase64_round_trip (header : jsstring) (bytes : list Z) (σ : heap) :
  Forall (fun c => c <> 44) header -> Forall is_byte bytes ->
  blobToBase64_onloadend (header ++ js "," ++ base64_encode bytes)
    = Some (base64_encode bytes) /\
  observe (base64ToUint8Array (base64_encode bytes)) σ = Ok bytes.
Proof.
  intros Hh Hb. split.
  - unfold blobToBase64_onloadend. change (js ",") with [44]. cbn [app].
    rewrite split_app by exact Hh.
    now rewrite split_no_sep by now apply base64_encode_no_comma.
  - rewrite observe_base64ToUint8Array. now apply atob_base64_encode.
Qed.

Lemma blobToBase64_round_trip_witness :
  blobToBase64_onloadend (js "data:audio/webm;codecs=opus;base64" ++ js ","
                          ++ base64_encode [26; 69; 223; 163])
    = Some (base64_encode [26; 69; 223; 163]) /\
  observe (base64ToUint8Array (base64_encode [26; 69; 223; 163])) [] = Ok [26; 69; 223; 163].
Proof.
  apply (blobToBase64_round_trip (js "data:audio/webm;codecs=opus;base64")
           [26; 69; 223; 163] []).
  - unfold js. simpl. repeat (constructor; [lia|]). constructor.
  - repeat (constructor; [unfold is_byte; lia|]). constructor.
Defined.

(** X6. [blobToBase64] resolves to the text between the first and the
    second comma of the reader's result: the piece up to the second comma
    if there is one (so a comma inside the media type cuts the result
    short of the payload), everything after the first comma otherwise, and
    [undefined] when the result has no comma at all. *)
Theorem blobToBase64_second_piece (h m rest : jsstring) :
  Forall (fun c => c <> 44) h -> Forall (fun c => c <> 44) m ->
  blobToBase64_onloadend (h ++ js "," ++ m ++ js "," ++ rest) = Some m /\
  blobToBase64_onloadend (h ++ js "," ++ m) = Some m /\
  blobToBase64_onloadend h = None.
Proof.
  intros Hh Hm. unfold blobToBase64_onloadend. change (js ",") with [44].
  cbn [app]. split; [|split].
  - now rewrite !split_app by assumption.
  - now rewrite split_app, split_no_sep by assumption.
  - now rewrite split_no_sep by assumption.
Qed.

Lemma blobToBase64_second_piece_witness :
  blobToBase64_onloadend (js "data:video/mp4;codecs=avc1" ++ js ","
                          ++ js "mp4a;base64" ++ js "," ++ js "AAAA")
    = Some (js "mp4a;base64").
Proof.
  apply (blobToBase64_second_piece (js "data:video/mp4;codecs=avc1")
           (js "mp4a;base64") (js "AAAA"));
    unfold js; simpl; repeat (constructor; [lia|]); constructor.
Defined.

(** ** More on the assembler and the header *)

(** X7. The assembler fails exactly on the inputs the decoder rejects, and
    then with the decoder's InvalidCharacterError: none of its own buffer
    operations can raise.  On every other input it returns a whole
    container: the 44 bytes of the header and the payload, all of them
    bytes. *)
Theorem pcmToWavBlob_failure (base64Audio : jsstring) (sampleRate : option number)
    (σ : heap) :
  ((exists e, observe_blob (pcmToWavBlob base64Audio sampleRate) σ = Throw e)
   <-> malformed base64Audio) /\
  (forall e, observe_blob (pcmToWavBlob base64Audio sampleRate) σ = Throw e ->
     e = InvalidCharacterError) /\
  (~ malformed base64Audio ->
   exists blob,
     observe_blob (pcmToWavBlob base64Audio sampleRate) σ = Ok blob /\
     (44 <= List.length (blob_bytes blob))%nat /\
     Forall is_byte (blob_bytes blob)).
Proof.
  rewrite observe_pcmToWavBlob.
  destruct (atob base64Audio) as [P|e] eqn:E.
  - assert (Hok : ~ malformed base64Audio)
      by (rewrite <- atob_malformed, E; discriminate).
    split; [|split].
    + split; [intros [e He]; discriminate He | intros Hm; contradiction].
    + intros e He. discriminate He.
    + intros _. eexists. split; [reflexivity|]. cbn [blob_bytes]. split.
      * rewrite length_app, length_wav_header. lia.
      * apply Forall_app. split; [apply wav_header_is_byte|].
        eapply atob_is_byte, E.
  - pose proof (atob_throws _ _ E) as ->.
    assert (Hm : malformed base64Audio) by now apply atob_malformed.
    split; [|split].
    + split; [intros _; exact Hm | intros _; now eexists].
    + intros e He. congruence.
    + intros Hn. contradiction.
Qed.

Lemma pcmToWavBlob_failure_witness :
  observe_blob (pcmToWavBlob (js "AAA") (Some 8000%Q)) [] <> Throw InvalidCharacterError /\
  malformed (js "AAAAA").
Proof.
  destruct (pcmToWavBlob_failure (js "AAA") (Some 8000%Q) []) as (_ & _ & Hok).
  destruct (pcmToWavBlob_failure (js "AAAAA") None []) as (Hiff & _ & _).
  split.
  - destruct Hok as (blob & -> & _); [|discriminate].
    intros Hm. apply atob_malformed in Hm. discriminate Hm.
  - apply Hiff. exists InvalidCharacterError. reflexivity.
Defined.

(** X8. In the assembled container the two size fields describe the
    container itself, as the comment in the source says ("File size - 8"):
    the field at offset 4 is the length of the container minus 8 and the
    field at offset 40 its length minus 44, modulo 2^32, and exactly so as
    long as the container is shorter than 2^32 + 8 bytes. *)
Theorem pcmToWavBlob_sizes (base64Audio : jsstring) (sampleRate : option number)
    (P : list Z) (σ : heap) :
  observe (base64ToUint8Array base64Audio) σ = Ok P ->
  exists blob,
    observe_blob (pcmToWavBlob base64Audio sampleRate) σ = Ok blob /\
    let size := Z.of_nat (List.length (blob_bytes blob)) in
    getUint32 (blob_bytes blob) 4 = (size - 8) mod 2 ^ 32 /\
    getUint32 (blob_bytes blob) 40 = (size - 44) mod 2 ^ 32 /\
    (size - 8 < 2 ^ 32 ->
     getUint32 (blob_bytes blob) 4 = size - 8 /\
     getUint32 (blob_bytes blob) 40 = size - 44).
Proof.
  rewrite observe_base64ToUint8Array, observe_pcmToWavBlob. intros ->.
  eexists. split; [reflexivity|]. cbn [blob_bytes]. cbv zeta.
  match goal with
  | |- context [wav_header ?a ?b ?c ?d ++ ?p] =>
      pose proof (wav_header_fields a b c d p) as F
  end.
  cbv zeta in F.
  destruct F as (_ & F4 & _ & _ & _ & _ & _ & _ & _ & _ & _ & _ & F40 & _).
  rewrite F4, F40, length_app, length_wav_header.
  assert (E4 : ToUint32 (36 + num (List.length P))%Q
               = (Z.of_nat (44 + List.length P) - 8) mod 2 ^ 32).
  { unfold ToUint32, ToUint, num.
    rewrite <- (inject_Z_plus 36), truncate_inject_Z. f_equal. lia. }
  assert (E40 : ToUint32 (num (List.length P))
                = (Z.of_nat (44 + List.length P) - 44) mod 2 ^ 32).
  { unfold ToUint32, ToUint, num. rewrite truncate_inject_Z. f_equal. lia. }
  rewrite E4, E40. split; [reflexivity|]. split; [reflexivity|].
  intros Hsmall. rewrite !Z.mod_small by lia. split; reflexivity.
Qed.

Lemma pcmToWavBlob_sizes_witness :
  exists blob,
    observe_blob (pcmToWavBlob (js "AAECAwQ=") None) [] = Ok blob /\
    getUint32 (blob_bytes blob) 4 = Z.of_nat (List.length (blob_bytes blob)) - 8 /\
    getUint32 (blob_bytes blob) 40 = Z.of_nat (List.length (blob_bytes blob)) - 44.
Proof.
  destruct (pcmToWavBlob_sizes (js "AAECAwQ=") None [0; 1; 2; 3; 4] [])
    as (blob & Hrun & _ & _ & Hexact); [reflexivity|].
  exists blob. split; [exact Hrun|].
  apply Hexact.
  vm_compute in Hrun. injection Hrun as <-. simpl. lia.
Defined.

(** X9. For integer arguments that fit their fields, with products that fit
    too and a bit depth that is a multiple of 8, the header is consistent
    the way decoders check it:
    ByteRate = SampleRate x BlockAlign and
    8 x BlockAlign = NumChannels x BitsPerSample. *)
Theorem createWavHeader_consistent (payloadLength : number) (sr nc B : Z) (σ : heap) :
  0 <= sr < 2 ^ 32 -> 0 <= nc < 2 ^ 16 -> 0 <= B -> 8 * B < 2 ^ 16 ->
  nc * B < 2 ^ 16 -> sr * nc * B < 2 ^ 32 ->
  exists bytes,
    observe (createWavHeader payloadLength (inject_Z sr) (inject_Z nc) (inject_Z (8 * B))) σ
      = Ok bytes /\
    getUint32 bytes 28 = getUint32 bytes 24 * getUint16 bytes 32 /\
    8 * getUint16 bytes 32 = getUint16 bytes 22 * getUint16 bytes 34.
Proof.
  intros Hsr Hnc HB H8B Halign Hrate.
  rewrite observe_createWavHeader. eexists. split; [reflexivity|].
  pose proof (wav_header_fields payloadLength (inject_Z sr) (inject_Z nc)
                (inject_Z (8 * B)) []) as F.
  cbv zeta in F. rewrite app_nil_r in F.
  destruct F as (_ & _ & _ & _ & _ & _ & F22 & F24 & F28 & F32 & F34 & _).
  rewrite F22, F24, F28, F32, F34.
  assert (E28 : ToUint32 (inject_Z sr * inject_Z nc * (inject_Z (8 * B) / 8))%Q
                = sr * nc * B).
  { apply ToUint_exact; [rewrite !inject_Z_mult; field | nia]. }
  assert (E32 : ToUint16 (inject_Z nc * (inject_Z (8 * B) / 8))%Q = nc * B).
  { apply ToUint_exact; [rewrite !inject_Z_mult; field | nia]. }
  assert (E24 : ToUint32 (inject_Z sr) = sr)
    by (apply ToUint_exact; [reflexivity | lia]).
  assert (E22 : ToUint16 (inject_Z nc) = nc)
    by (apply ToUint_exact; [reflexivity | lia]).
  assert (E34 : ToUint16 (inject_Z (8 * B)) = 8 * B)
    by (apply ToUint_exact; [reflexivity | lia]).
  rewrite E28, E32, E24, E22, E34. split; ring.
Qed.

Lemma createWavHeader_consistent_witness :
  exists bytes,
    observe (createWavHeader 0%Q (inject_Z 44100) (inject_Z 2) (inject_Z (8 * 3))) []
      = Ok bytes /\
    getUint32 bytes 28 = getUint32 bytes 24 * getUint16 bytes 32 /\
    8 * getUint16 bytes 32 = getUint16 bytes 22 * getUint16 bytes 34.
Proof.
  apply (createWavHeader_consistent 0%Q 44100 2 3 []); lia.
Defined.

(** ** [writeString] *)

Lemma setUint8_overflow (σ rest : heap) off x buf :
  (List.length buf < off + 1)%nat ->
  run (setUint8 {| dv_buffer := {| ab_addr := List.length σ |} |} off x)
      (σ ++ buf :: rest)
  = Throw RangeError.
Proof.
  intros H. unfold setUint8, SetViewValue. simpl.
  rewrite heap_lookup_cell. now rewrite decide_False by lia.
Qed.

(** Once the end of the buffer is within reach of the loop, the write that
    crosses it raises. *)
Lemma writeString_loop_overflow (σ rest : heap) off (s : jsstring) n : forall i buf,
  (0 < n)%nat -> (List.length buf < off + i + n)%nat ->
  run (for_loop n i (fun i =>
         setUint8 {| dv_buffer := {| ab_addr := List.length σ |} |} (off + i)
           (charCodeAt s i)))
      (σ ++ buf :: rest)
  = Throw RangeError.
Proof.
  induction n as [|n IH]; intros i buf Hn Hover; [lia|].
  cbn [for_loop]. rewrite run_bind.
  destruct (decide (off + i + 1 <= List.length buf)%nat) as [Hfit|Hout].
  - rewrite setUint8_cell by exact Hfit.
    apply IH; rewrite ?length_store_bytes by (simpl; lia); lia.
  - now rewrite setUint8_overflow by lia.
Qed.

(** X10. When the string fits in the buffer from [offset] on, [writeString]
    stores the low byte of each code unit there, in order (a code unit
    above 255 loses its high byte), and changes nothing else: not the
    length of the buffer, not the bytes before or after, not the other
    buffers. *)
Theorem writeString_frame (σ rest : heap) (offset : nat) (s : jsstring) (buf : list Z) :
  (offset + List.length s <= List.length buf)%nat ->
  exists buf',
    run (writeString {| dv_buffer := {| ab_addr := List.length σ |} |} offset s)
        (σ ++ buf :: rest)
    = Ok (tt, σ ++ buf' :: rest) /\
    List.length buf' = List.length buf /\
    slice offset (List.length s) buf' = map (fun c => c mod 256) s /\
    take offset buf' = take offset buf /\
    drop (offset + List.length s) buf' = drop (offset + List.length s) buf.
Proof.
  intros Hfit. eexists. split; [now apply writeString_cell|].
  assert (Hlen : List.length (map (fun c => c mod 256) s) = List.length s)
    by apply length_map.
  split; [apply length_store_bytes; lia|].
  unfold slice, store_bytes. rewrite Hlen.
  assert (Htake : offset = List.length (take offset buf))
    by (rewrite length_take; lia).
  split; [|split].
  - rewrite (drop_app_length' _ _ offset Htake).
    now apply take_app_length'.
  - now apply take_app_length'.
  - rewrite app_assoc. apply drop_app_length'.
    rewrite length_app, Hlen. lia.
Qed.

Lemma writeString_frame_witness :
  exists buf',
    run (writeString {| dv_buffer := {| ab_addr := 0 |} |} 1 [72; 9786]) [[7; 7; 7; 7]]
    = Ok (tt, [buf']) /\
    slice 1 2 buf' = [72; 58] /\ take 1 buf' = [7] /\ drop 3 buf' = [7].
Proof.
  destruct (writeString_frame [] [] 1 [72; 9786] [7; 7; 7; 7])
    as (buf' & Hrun & _ & Hs & Ht & Hd); [simpl; lia|].
  exists buf'. split; [exact Hrun|]. split; [exact Hs|]. split; [exact Ht | exact Hd].
Defined.

(** X11. A string that does not fit makes [writeString] raise RangeError,
    and only that does: for a non-empty string the call raises if and only
    if [offset + string.length] exceeds the length of the buffer; an empty
    string never raises, whatever the offset. *)
Theorem writeString_overflow (σ rest : heap) (offset : nat) (s : jsstring) (buf : list Z) :
  (s <> [] ->
   (run (writeString {| dv_buffer := {| ab_addr := List.length σ |} |} offset s)
        (σ ++ buf :: rest) = Throw RangeError
    <-> (List.length buf < offset + List.length s)%nat)) /\
  run (writeString {| dv_buffer := {| ab_addr := List.length σ |} |} offset [])
      (σ ++ buf :: rest) = Ok (tt, σ ++ buf :: rest).
Proof.
  split; [|reflexivity].
  intros Hne. split.
  - intros Hthrow.
    destruct (decide (offset + List.length s <= List.length buf)%nat) as [Hfit|Hout];
      [|lia].
    rewrite writeString_cell in Hthrow by exact Hfit. discriminate Hthrow.
  - intros Hover. unfold writeString. apply writeString_loop_overflow; [|lia].
    destruct s; [contradiction | simpl; lia].
Qed.

Lemma writeString_overflow_witness :
  run (writeString {| dv_buffer := {| ab_addr := 0 |} |} 42 (js "data")) [replicate 44 0]
  = Throw RangeError.
Proof.
  destruct (writeString_overflow [] [] 42 (js "data") (replicate 44 0)) as [Hiff _].
  apply Hiff; [discriminate | simpl; lia].
Defined.

(** ** More on the decoder *)

(** Only the characters that are not ASCII whitespace count. *)
Lemma atob_whitespace (s : jsstring) :
  atob (filter (fun c => is_ascii_whitespace c = false) s) = atob s.
Proof.
  unfold atob, forgiving_base64_decode, trimmed. cbv zeta.
  rewrite (filter_all _ (filter _ s)); [reflexivity|].
  apply Forall_forall. intros c Hc. now apply list_elem_of_filter in Hc as [Hc _].
Qed.

Lemma atob_unpadded (P : list Z) :
  Forall is_byte P -> atob (map b64char (to_sextets P)) = Ok P.
Proof.
  intros HP. unfold atob, forgiving_base64_decode. cbv zeta.
  pose proof (b64char_plain _ (to_sextets_is_sextet P HP)) as Hplain.
  assert (Htrim : trimmed (map b64char (to_sextets P)) = map b64char (to_sextets P)).
  { unfold trimmed. rewrite filter_all
      by (eapply Forall_impl; [exact Hplain|]; now intros c [Hc _]).
    destruct (_ =? 0)%nat; [|reflexivity].
    rewrite <- (app_nil_r (map b64char (to_sextets P))) at 1.
    apply strip_padding_body; [|now left].
    eapply Forall_impl; [exact Hplain|]. now intros c [_ Hc]. }
  rewrite Htrim, length_map.
  rewrite (proj2 (Nat.eqb_neq _ _) (proj1 (length_to_sextets P))).
  rewrite mapM_sextet_b64char by now apply to_sextets_is_sextet.
  simpl. now rewrite decode_to_sextets.
Qed.

(** X12. The decoder accepts the standard encoding of a byte sequence with
    or without its [=] padding and with ASCII whitespace (spaces, tabs, line
    breaks) anywhere in it, and decodes all of these to the same bytes. *)
Theorem base64ToUint8Array_lenient (base64 : jsstring) (P : list Z) (σ : heap) :
  Forall is_byte P ->
  filter (fun c => is_ascii_whitespace c = false) base64 = base64_encode P \/
  filter (fun c => is_ascii_whitespace c = false) base64 = map b64char (to_sextets P) ->
  observe (base64ToUint8Array base64) σ = Ok P.
Proof.
  intros HP Hs. rewrite observe_base64ToUint8Array, <- atob_whitespace.
  destruct Hs as [-> | ->]; [now apply atob_base64_encode | now apply atob_unpadded].
Qed.

Lemma base64ToUint8Array_lenient_witness :
  observe (base64ToUint8Array (js "TW Fu
QQ")) [] = Ok [77; 97; 110; 65].
Proof.
  apply (base64ToUint8Array_lenient _ [77; 97; 110; 65] []).
  - repeat (constructor; [unfold is_byte; lia|]). constructor.
  - right. reflexivity.
Defined.

Lemma length_decode_sextets (v : list Z) :
  List.length (decode_sextets v) = (3 * List.length v / 4)%nat.
Proof.
  induction v as [| a | a b | a b c | a b c d v IH] using list_ind4;
    try reflexivity.
  cbn [decode_sextets List.length]. rewrite IH.
  replace (3 * S (S (S (S (List.length v)))))%nat
    with (3 * List.length v + 3 * 4)%nat by lia.
  rewrite Nat.div_add by lia. lia.
Qed.

(** X13. The size of the result follows from the text alone: an input that
    decodes gives three bytes for every four base64 characters (whitespace
    and padding not counted), rounded down, and the container is 44 bytes
    longer than that. *)
Theorem decoded_length (base64Audio : jsstring) (sampleRate : option number)
    (P : list Z) (σ : heap) :
  observe (base64ToUint8Array base64Audio) σ = Ok P ->
  List.length P = (3 * List.length (trimmed base64Audio) / 4)%nat /\
  exists blob,
    observe_blob (pcmToWavBlob base64Audio sampleRate) σ = Ok blob /\
    List.length (blob_bytes blob)
    = (44 + 3 * List.length (trimmed base64Audio) / 4)%nat.
Proof.
  rewrite observe_base64ToUint8Array, observe_pcmToWavBlob. intros Hdec.
  assert (Hlen : List.length P = (3 * List.length (trimmed base64Audio) / 4)%nat).
  { unfold atob, forgiving_base64_decode in Hdec. cbv zeta in Hdec.
    destruct (_ =? 1)%nat; [discriminate|].
    destruct (mapM sextet (trimmed base64Audio)) as [v|] eqn:Hv; [|discriminate].
    simpl in Hdec. injection Hdec as <-.
    rewrite length_decode_sextets. now rewrite (length_mapM _ _ _ Hv). }
  split; [exact Hlen|]. rewrite Hdec.
  eexists. split; [reflexivity|]. cbn [blob_bytes].
  now rewrite length_app, length_wav_header, Hlen.
Qed.

Lemma decoded_length_witness :
  List.length [0; 1; 2; 3; 4] = (3 * List.length (trimmed (js "AAEC AwQ=")) / 4)%nat /\
  exists blob,
    observe_blob (pcmToWavBlob (js "AAEC AwQ=") None) [] = Ok blob /\
    List.length (blob_bytes blob)
    = (44 + 3 * List.length (trimmed (js "AAEC AwQ=")) / 4)%nat.
Proof.
  apply (decoded_length (js "AAEC AwQ=") None [0; 1; 2; 3; 4] []). reflexivity.
Defined.

(** ** [playPCMAudio] *)

Lemma fill_channelData_run (σ rest : heap) (buf : list Z) (len n : nat) : forall i,
  run (fill_channelData n i
         {| i16_buffer := {| ab_addr := List.length σ |}; i16_length := len |})
      (σ ++ buf :: rest)
  = Ok (map (pcm_sample buf) (seq i n), σ ++ buf :: rest).
Proof.
  induction n as [|n IH]; intros i; [reflexivity|].
  cbn [fill_channelData]. rewrite run_bind.
  unfold Int16Array_get at 1. cbn [run i16_buffer ab_addr].
  rewrite heap_lookup_cell. rewrite run_bind, IH. reflexivity.
Qed.

Lemma playPCMAudio_channelData_run (s : jsstring) (σ : heap) :
  run (playPCMAudio_channelData s) σ =
  match atob s with
  | Ok P =>
      if decide (List.length P mod 2 = 0)%nat
      then Ok (map (pcm_sample P) (seq 0 (List.length P / 2)), σ ++ [P])
      else Throw RangeError
  | Throw e => Throw e
  end.
Proof.
  unfold playPCMAudio_channelData. rewrite run_bind, base64ToUint8Array_run.
  destruct (atob s) as [P|e]; [|reflexivity].
  rewrite run_bind. unfold new_Int16Array. cbn [run buffer ab_addr].
  rewrite heap_lookup_cell.
  destruct (decide (List.length P mod 2 = 0)%nat); [|reflexivity].
  apply fill_channelData_run.
Qed.

Lemma to_int16_range (v : Z) : 0 <= v < 65536 -> -32768 <= to_int16 v < 32768.
Proof. unfold to_int16. intros H. destruct (Z.ltb_spec v 32768); lia. Qed.

Lemma le_value_pair_range (l : list Z) (off : nat) :
  Forall is_byte l -> 0 <= le_value (slice off 2 l) < 65536.
Proof.
  intros Hl. unfold slice.
  assert (Hb : Forall is_byte (take 2 (drop off l)))
    by now apply Forall_take, Forall_drop.
  assert (Hlen : (List.length (take 2 (drop off l)) <= 2)%nat)
    by (rewrite length_take; lia).
  destruct (take 2 (drop off l)) as [|a [|b [|c t]]]; cbn [le_value].
  - lia.
  - inversion_clear Hb as [|? ? Ha _]. unfold is_byte in Ha. lia.
  - inversion_clear Hb as [|? ? Ha Hb']. inversion_clear Hb' as [|? ? Hb _].
    unfold is_byte in *. lia.
  - simpl in Hlen. lia.
Qed.

Lemma pcm_sample_range (P : list Z) (k : nat) :
  Forall is_byte P -> (-1 <= pcm_sample P k)%Q /\ (pcm_sample P k < 1)%Q.
Proof.
  intros HP. unfold pcm_sample.
  pose proof (to_int16_range _ (le_value_pair_range P (2 * k) HP)) as H.
  generalize dependent (to_int16 (le_value (slice (2 * k) 2 P))). intros v Hv.
  unfold Qle, Qlt. simpl. lia.
Qed.

(** X14. A payload with an odd number of bytes makes [playPCMAudio] raise
    RangeError when it views the bytes as 16-bit samples (the error is
    logged and thrown again, so the promise is rejected with it), whereas
    [pcmToWavBlob] accepts the same input and puts the payload, half a
    sample included, in the container. *)
Theorem odd_payload (base64Audio : jsstring) (sampleRate : option number)
    (P : list Z) (σ : heap) :
  observe (base64ToUint8Array base64Audio) σ = Ok P ->
  (List.length P mod 2 = 1)%nat ->
  run (playPCMAudio_channelData base64Audio) σ = Throw RangeError /\
  exists blob,
    observe_blob (pcmToWavBlob base64Audio sampleRate) σ = Ok blob /\
    drop 44 (blob_bytes blob) = P.
Proof.
  rewrite observe_base64ToUint8Array, observe_pcmToWavBlob,
    playPCMAudio_channelData_run.
  intros -> Hodd. split.
  - now rewrite decide_False by lia.
  - eexists. split; [reflexivity|]. cbn [blob_bytes]. apply wav_header_fields.
Qed.

Lemma odd_payload_witness :
  run (playPCMAudio_channelData (js "AAEC")) [] = Throw RangeError /\
  exists blob,
    observe_blob (pcmToWavBlob (js "AAEC") None) [] = Ok blob /\
    drop 44 (blob_bytes blob) = [0; 1; 2].
Proof.
  apply (odd_payload (js "AAEC") None [0; 1; 2] []); reflexivity.
Defined.

(** X15. A non-empty payload with an even number of bytes gives
    [playPCMAudio] one sample for every two bytes: sample [k] is the signed
    16-bit value with low byte [P[2k]] and high byte [P[2k+1]], divided by
    32768, so every sample is at least -1 and less than 1; the payload
    itself is left as decoded. *)
Theorem even_payload_samples (base64Audio : jsstring) (P : list Z) (σ : heap) :
  observe (base64ToUint8Array base64Audio) σ = Ok P ->
  P <> [] -> (List.length P mod 2 = 0)%nat ->
  exists samples,
    run (playPCMAudio_channelData base64Audio) σ = Ok (samples, σ ++ [P]) /\
    List.length samples = (List.length P / 2)%nat /\
    (forall k lo hi,
       P !! (2 * k)%nat = Some lo -> P !! (2 * k + 1)%nat = Some hi ->
       samples !! k = Some (inject_Z (to_int16 (lo + 256 * hi)) / 32768)%Q) /\
    Forall (fun v => (-1 <= v)%Q /\ (v < 1)%Q) samples.
Proof.
  rewrite observe_base64ToUint8Array, playPCMAudio_channelData_run.
  intros Hdec _ Heven. rewrite Hdec, decide_True by exact Heven.
  eexists. split; [reflexivity|].
  split; [now rewrite length_map, length_seq|]. split.
  - intros k lo hi Hlo Hhi.
    assert (Hk : (k < List.length P / 2)%nat).
    { apply lookup_lt_Some in Hhi.
      pose proof (Nat.div_mod_eq (List.length P) 2). lia. }
    rewrite list_lookup_fmap, (lookup_seq_lt _ _ _ Hk). cbn [fmap option_fmap option_map].
    unfold pcm_sample, slice. rewrite Nat.add_0_l.
    rewrite (drop_S _ _ _ Hlo).
    replace (S (2 * k)) with (2 * k + 1)%nat by lia.
    rewrite (drop_S _ _ _ Hhi). cbn [take le_value]. rewrite take_0. cbn [le_value].
    now replace (lo + 256 * (hi + 256 * 0)) with (lo + 256 * hi) by lia.
  - apply Forall_forall. intros v Hv.
    apply list_elem_of_fmap in Hv as (k & -> & _).
    apply pcm_sample_range. eapply atob_is_byte, Hdec.
Qed.

Lemma even_payload_samples_witness :
  exists samples,
    run (playPCMAudio_channelData (js "AECAgA==")) [] = Ok (samples, [] ++ [[0; 64; 128; 128]]) /\
    samples !! 1%nat = Some (inject_Z (to_int16 (128 + 256 * 128)) / 32768)%Q.
Proof.
  destruct (even_payload_samples (js "AECAgA==") [0; 64; 128; 128] [])
    as (samples & Hrun & _ & Hk & _); [reflexivity | discriminate | reflexivity |].
  exists samples. split; [exact Hrun|].
  apply (Hk 1%nat 128 128); reflexivity.
Defined.
